(** * batchrename: a shallow embedding of [bin/batchrename.py]

    The development follows the layout of the script:

    - [PyStr]    the methods of Python's [str] and the builtins [str] and
                 [int] that the script calls;
    - [Re]       the part of Python's [re] module the script relies on: the
                 interface of a compiled pattern, [Pattern.sub] with its
                 replacement templates, and a small backtracking engine used
                 for the one pattern the script itself contains;
    - [BatchRename]  the script's own functions, [gen_files], [walk_tree],
                 [init_renumbering], [init_from_args] and [batch_rename],
                 written against a state-and-exception monad.

    A Python string is modelled as the list of its characters, taken
    among the 256 first code points. *)

From Stdlib Require Import List Ascii ZArith Lia Bool Arith.
From Stdlib Require String.
From Stdlib Require Import DecimalString DecimalZ DecimalPos.
From Stdlib.Strings Require Import Byte.
Import ListNotations.

(* ================================================================== *)
(** ** Python strings *)

Module PyStr.

(** A Python [str], as the list of its characters. *)
Definition str : Type := list ascii.

Inductive raw_str : Type :=
| RNil
| RCons (a : ascii) (r : raw_str).

Fixpoint raw_of_bytes (l : list byte) : raw_str :=
  match l with
  | [] => RNil
  | b :: l' => RCons (ascii_of_byte b) (raw_of_bytes l')
  end.

Fixpoint bytes_of_raw (r : raw_str) : list byte :=
  match r with
  | RNil => []
  | RCons a r' => byte_of_ascii a :: bytes_of_raw r'
  end.

Declare Scope str_scope.
Delimit Scope str_scope with str.

#[warnings="-via-type-remapping,-via-type-mismatch"]
String Notation str raw_of_bytes bytes_of_raw
  (via raw_str mapping [[nil] => RNil, [cons] => RCons]) : str_scope.

Open Scope str_scope.
Open Scope list_scope.

Definition ch_eqb (a b : ascii) : bool := Ascii.eqb a b.

Fixpoint str_eqb (a b : str) : bool :=
  match a, b with
  | [], [] => true
  | x :: a', y :: b' => ch_eqb x y && str_eqb a' b'
  | _, _ => false
  end.

(** [s.startswith(p)] *)
Fixpoint startswith (p s : str) : bool :=
  match p, s with
  | [], _ => true
  | x :: p', y :: s' => ch_eqb x y && startswith p' s'
  | _ :: _, [] => false
  end.

(** [s[i:j]] for [0 <= i], [0 <= j]. *)
Definition slice (s : str) (i j : nat) : str := firstn (j - i) (skipn i s).

(** [sub in s] *)
Fixpoint contains (sub s : str) : bool :=
  startswith sub s ||
  match s with
  | [] => false
  | _ :: s' => contains sub s'
  end.

(** The scan of [s.replace(old, new)] for a non-empty [old]: [skip] counts
    the characters of a match just replaced that are still to be passed
    over. *)
Fixpoint replace_from (old new : str) (skip : nat) (s : str) : str :=
  match s with
  | [] => []
  | c :: s' =>
      match skip with
      | S k => replace_from old new k s'
      | O =>
          if startswith old s
          then new ++ replace_from old new (length old - 1) s'
          else c :: replace_from old new 0 s'
      end
  end.

(** [s.replace(old, new)]: every non-overlapping occurrence of [old], found
    from the left, is replaced by [new].  For the empty [old] Python puts
    [new] before every character and at the end. *)
Definition replace (s old new : str) : str :=
  match old with
  | [] => new ++ flat_map (fun c => c :: new) s
  | _ :: _ => replace_from old new 0 s
  end.

(** No occurrence of [old] begins in the last characters of [a] and ends
    in [b]: the condition under which the scan of [a ++ b] is the scan of
    [a] and then that of [b]. *)
Definition no_straddle (old a b : str) : Prop :=
  forall a1 a2, a = a1 ++ a2 -> a2 <> [] -> length a2 < length old ->
    startswith old (a2 ++ b) = false.

(** The characters below 256 for which [str.isspace] holds, which
    [str.strip()] removes: TAB, LF, VT, FF, CR, FS, GS, RS, US, space, NEL
    and the no-break space. *)
Definition isspace (c : ascii) : bool :=
  let n := nat_of_ascii c in
  ((9 <=? n) && (n <=? 13)) || ((28 <=? n) && (n <=? 32))
  || (n =? 133) || (n =? 160).

Fixpoint lstrip (s : str) : str :=
  match s with
  | c :: s' => if isspace c then lstrip s' else s
  | [] => []
  end.

Definition rstrip (s : str) : str := rev (lstrip (rev s)).

(** [s.strip()] *)
Definition strip (s : str) : str := rstrip (lstrip s).

(** [s.zfill(width)]: a string already [width] long is returned as it is;
    otherwise zeros are put in front, after a leading sign if there is one. *)
Definition zfill (s : str) (width : Z) : str :=
  if (width <=? Z.of_nat (length s))%Z then s
  else
    let fill := repeat "0"%char (Z.to_nat width - length s) in
    match s with
    | c :: s' =>
        if ch_eqb c "+" || ch_eqb c "-" then c :: fill ++ s' else fill ++ s
    | [] => fill
    end.

(** [str(n)] for an [int]: its decimal digits, after a minus sign when
    negative. *)
Definition str_of_int (n : Z) : str :=
  String.list_ascii_of_string (NilZero.string_of_int (Z.to_int n)).

Definition isdigit (c : ascii) : bool :=
  let n := nat_of_ascii c in (48 <=? n) && (n <=? 57).

(** Single underscores between digits are allowed in the argument of
    [int()], and dropped. [after_digit] tells whether the previous character
    was a digit. *)
Fixpoint drop_underscores (after_digit : bool) (s : str) : option str :=
  match s with
  | [] => if after_digit then Some [] else None
  | c :: s' =>
      if ch_eqb c "_" then
        if after_digit then drop_underscores false s' else None
      else if isdigit c then
        option_map (cons c) (drop_underscores true s')
      else None
  end.

Definition int_of_digits (s : str) : option Z :=
  match drop_underscores false s with
  | Some d =>
      option_map Z.of_uint (NilEmpty.uint_of_string (String.string_of_list_ascii d))
  | None => None
  end.

(** [int(s)] for a string: surrounding whitespace is ignored, a sign may
    come first, then decimal digits.  [None] stands for [ValueError]. *)
Definition int_of_str (s : str) : option Z :=
  match strip s with
  | c :: s' =>
      if ch_eqb c "-" then option_map Z.opp (int_of_digits s')
      else if ch_eqb c "+" then int_of_digits s'
      else int_of_digits (c :: s')
  | [] => None
  end.

End PyStr.

(* ================================================================== *)
(** ** The [re] module *)

Module Re.
Import PyStr.

(** A match object: the span of the whole match and the spans of groups
    1, 2, ... ([None] for a group that took no part in the match). *)
Record MatchObj : Type := {
  m_start : nat;
  m_end : nat;
  m_spans : list (option (nat * nat))
}.

(** A compiled pattern.  [match_at s pos must_advance] is one attempt of the
    engine at position [pos] of [s], as [Pattern.match(s, pos)]; with
    [must_advance] an empty match is not accepted.  [groups] and
    [groupindex] are the attributes of the same names. *)
Record Pattern : Type := {
  groups : nat;
  groupindex : str -> option nat;
  match_at : str -> nat -> bool -> option MatchObj
}.

(** [Pattern.match(s)] *)
Definition pmatch (p : Pattern) (s : str) : option MatchObj :=
  match_at p s 0 false.

(** [m.group(k)] for the match [m] of a pattern against [s].  The outer
    [None] is the [IndexError] for a group the match does not have, the
    inner one Python's [None] for a group that did not take part. *)
Definition group (s : str) (m : MatchObj) (k : Z) : option (option str) :=
  match k with
  | Z0 => Some (Some (slice s (m_start m) (m_end m)))
  | Zpos q =>
      match nth_error (m_spans m) (Pos.to_nat q - 1) with
      | Some (Some (b, e)) => Some (Some (slice s b e))
      | Some None => Some None
      | None => None
      end
  | Zneg _ => None
  end.

(** What every engine guarantees of its matches: a match starts where it
    was attempted and ends in the string, after its start when it has to
    advance. *)
Definition well_formed (p : Pattern) : Prop :=
  forall s pos must_advance m,
    pos <= length s ->
    match_at p s pos must_advance = Some m ->
    m_start m = pos /\ pos <= m_end m <= length s
    /\ (must_advance = true -> pos < m_end m).

(** The engine's search: the first position from [pos] on at which an
    attempt succeeds; [must_advance] holds for the attempt at [pos] only. *)
Fixpoint search_from (p : Pattern) (s : str) (pos : nat) (must_advance : bool)
    (fuel : nat) : option MatchObj :=
  match match_at p s pos must_advance with
  | Some m => Some m
  | None =>
      match fuel with
      | O => None
      | S f => search_from p s (S pos) false f
      end
  end.

Definition search (p : Pattern) (s : str) (pos : nat) (must_advance : bool)
    : option MatchObj :=
  if pos <=? length s then search_from p s pos must_advance (length s - pos)
  else None.

(** *** Replacement templates *)

(** The tokenizer of templates hands out a character, or a backslash with
    the character after it. *)
Inductive token : Type :=
| TChar (c : ascii)
| TEsc (c : ascii).

(** [None]: the template ends in a lone backslash. *)
Fixpoint tokenize (t : str) : option (list token) :=
  match t with
  | [] => Some []
  | c :: t' =>
      if ch_eqb c "\" then
        match t' with
        | [] => None
        | e :: t'' => option_map (cons (TEsc e)) (tokenize t'')
        end
      else option_map (cons (TChar c)) (tokenize t')
  end.

(** A parsed template: literal text and references to groups. *)
Inductive item : Type :=
| Lit (text : str)
| Ref (g : nat).

Definition isoctdigit (c : ascii) : bool :=
  let n := nat_of_ascii c in (48 <=? n) && (n <=? 55).

Definition isalpha (c : ascii) : bool :=
  let n := nat_of_ascii c in
  ((65 <=? n) && (n <=? 90)) || ((97 <=? n) && (n <=? 122)).

Definition digit_val (c : ascii) : nat := nat_of_ascii c - 48.

(** The characters below 256 that can start an identifier: the letters
    and the underscore. *)
Definition isidstart (c : ascii) : bool :=
  let n := nat_of_ascii c in
  isalpha c || ch_eqb c "_"
  || (n =? 170) || (n =? 181) || (n =? 186)
  || ((192 <=? n) && (n <=? 214)) || ((216 <=? n) && (n <=? 246))
  || (248 <=? n).

(** Those that can continue one: digits and the middle dot as well. *)
Definition isidcontinue (c : ascii) : bool :=
  isidstart c || isdigit c || (nat_of_ascii c =? 183).

(** [name.isidentifier()] *)
Definition isidentifier (name : str) : bool :=
  match name with
  | [] => false
  | c :: rest => isidstart c && forallb isidcontinue rest
  end.

(** The escapes of a template that stand for one character. *)
Definition simple_escape (c : ascii) : option ascii :=
  if ch_eqb c "a" then Some (ascii_of_nat 7)
  else if ch_eqb c "b" then Some (ascii_of_nat 8)
  else if ch_eqb c "f" then Some (ascii_of_nat 12)
  else if ch_eqb c "n" then Some (ascii_of_nat 10)
  else if ch_eqb c "r" then Some (ascii_of_nat 13)
  else if ch_eqb c "t" then Some (ascii_of_nat 9)
  else if ch_eqb c "v" then Some (ascii_of_nat 11)
  else if ch_eqb c "\" then Some "\"%char
  else None.

(** The tokens up to the closing [>] of [\g<...>], and those after it.
    [None]: no [>], or an escape inside the name (never a valid name). *)
Fixpoint getuntil_gt (toks : list token) : option (str * list token) :=
  match toks with
  | [] => None
  | TChar c :: rest =>
      if ch_eqb c ">" then Some ([], rest)
      else
        match getuntil_gt rest with
        | Some (name, rest') => Some (c :: name, rest')
        | None => None
        end
  | TEsc _ :: _ => None
  end.

Definition decimal_val (name : str) : nat :=
  fold_left (fun acc c => 10 * acc + digit_val c) name 0.

(** The tokens of a template in which [{n}] is written: [n] and the
    closing brace after a brace, which the character before it may have
    escaped. *)
Definition marked (toks : list token) : Prop :=
  exists ta x tb,
    (x = TChar "{" \/ x = TEsc "{")
    /\ toks = ta ++ x :: TChar "n" :: TChar "}" :: tb.

(** A reference to group [index] is refused when the pattern has fewer
    groups. *)
Definition addgroup (p : Pattern) (index : nat) : option item :=
  if index <=? groups p then Some (Ref index) else None.

(** The parser of templates.  [None] stands for the exception it raises
    ([re.error], or [IndexError] for an unknown group name). *)
Fixpoint parse_tokens (p : Pattern) (fuel : nat) (toks : list token)
    : option (list item) :=
  match fuel with
  | O => None
  | S fuel' =>
      let continue (it : option item) (rest : list token) :=
        match it, parse_tokens p fuel' rest with
        | Some i, Some items => Some (i :: items)
        | _, _ => None
        end in
      match toks with
      | [] => Some []
      | TChar c :: rest => continue (Some (Lit [c])) rest
      | TEsc c :: rest =>
          if ch_eqb c "g" then
            match rest with
            | TChar lt :: rest1 =>
                if ch_eqb lt "<" then
                  match getuntil_gt rest1 with
                  | Some (name, rest2) =>
                      if isidentifier name then
                        match groupindex p name with
                        | Some index => continue (addgroup p index) rest2
                        | None => None
                        end
                      else if negb (length name =? 0) && forallb isdigit name
                      then continue (addgroup p (decimal_val name)) rest2
                      else None
                  | None => None
                  end
                else None
            | _ => None
            end
          else if ch_eqb c "0" then
            match rest with
            | TChar d1 :: TChar d2 :: rest2 =>
                if isoctdigit d1 && isoctdigit d2 then
                  continue
                    (Some (Lit [ascii_of_nat (8 * digit_val d1 + digit_val d2)]))
                    rest2
                else if isoctdigit d1 then
                  continue (Some (Lit [ascii_of_nat (digit_val d1)]))
                    (TChar d2 :: rest2)
                else continue (Some (Lit [ascii_of_nat 0])) rest
            | TChar d1 :: rest1 =>
                if isoctdigit d1 then
                  continue (Some (Lit [ascii_of_nat (digit_val d1)])) rest1
                else continue (Some (Lit [ascii_of_nat 0])) rest
            | _ => continue (Some (Lit [ascii_of_nat 0])) rest
            end
          else if isdigit c then
            match rest with
            | TChar d1 :: rest1 =>
                if isdigit d1 then
                  match rest1 with
                  | TChar d2 :: rest2 =>
                      if isoctdigit c && isoctdigit d1 && isoctdigit d2 then
                        let v := 64 * digit_val c + 8 * digit_val d1
                                 + digit_val d2 in
                        if v <=? 255 then
                          continue (Some (Lit [ascii_of_nat v])) rest2
                        else None
                      else
                        continue
                          (addgroup p (10 * digit_val c + digit_val d1)) rest1
                  | _ =>
                      continue
                        (addgroup p (10 * digit_val c + digit_val d1)) rest1
                  end
                else continue (addgroup p (digit_val c)) rest
            | _ => continue (addgroup p (digit_val c)) rest
            end
          else
            match simple_escape c with
            | Some e => continue (Some (Lit [e])) rest
            | None =>
                if isalpha c then None
                else continue (Some (Lit ["\"%char; c])) rest
            end
      end
  end.

Definition parse_template (p : Pattern) (repl : str) : option (list item) :=
  match tokenize repl with
  | Some toks => parse_tokens p (S (length toks)) toks
  | None => None
  end.

(** The text a parsed template stands for at the match [m] in [s]; a group
    that took no part gives the empty string. *)
Fixpoint expand (items : list item) (s : str) (m : MatchObj) : str :=
  match items with
  | [] => []
  | Lit text :: rest => text ++ expand rest s m
  | Ref g :: rest =>
      match group s m (Z.of_nat g) with
      | Some (Some text) => text ++ expand rest s m
      | _ => expand rest s m
      end
  end.

(** The loop of [Pattern.sub]: [start] is where the next search begins,
    [i] the end of what has been copied to the result.  After an empty
    match the next attempt has to advance. *)
Fixpoint sub_loop (p : Pattern) (items : list item) (s : str) (fuel : nat)
    (start : nat) (must_advance : bool) (i : nat) : str :=
  match fuel with
  | O => skipn i s
  | S fuel' =>
      match search p s start must_advance with
      | None => skipn i s
      | Some m =>
          slice s i (m_start m) ++ expand items s m
          ++ sub_loop p items s fuel' (m_end m) (m_end m =? m_start m)
               (m_end m)
      end
  end.

(** The turns of the loop of [sub] still possible from [start]. *)
Definition turns (s : str) (start : nat) (must_advance : bool) : nat :=
  2 * (length s - start) + (if must_advance then 1 else 2).

(** [Pattern.sub(repl, s)] for a template string [repl]; [None] when the
    template is refused. *)
Definition sub (p : Pattern) (repl s : str) : option str :=
  match parse_template p repl with
  | Some items => Some (sub_loop p items s (2 * length s + 3) 0 false 0)
  | None => None
  end.

(** *** A backtracking engine

    Patterns the development itself needs are written as syntax trees:
    [RPlus] and [ROpt] below give [+] and [?]. *)
Inductive regex : Type :=
| REps
| RChar (c : ascii)
| RAny
| RRange (lo hi : ascii)
| RCat (r1 r2 : regex)
| RAlt (r1 r2 : regex)
| RStar (r : regex)
| RGroup (index : nat) (r : regex).

Definition RPlus (r : regex) : regex := RCat r (RStar r).
Definition ROpt (r : regex) : regex := RAlt r REps.

Fixpoint RLit (s : str) : regex :=
  match s with
  | [] => REps
  | c :: s' => RCat (RChar c) (RLit s')
  end.

Fixpoint ngroups (r : regex) : nat :=
  match r with
  | RCat r1 r2 | RAlt r1 r2 => Nat.max (ngroups r1) (ngroups r2)
  | RStar r1 => ngroups r1
  | RGroup index r1 => Nat.max index (ngroups r1)
  | _ => 0
  end.

Definition caps : Type := list (option (nat * nat)).

Fixpoint set_cap (index : nat) (v : nat * nat) (c : caps) : caps :=
  match index, c with
  | _, [] => []
  | O, _ => c
  | 1, _ :: c' => Some v :: c'
  | S k, x :: c' => x :: set_cap k v c'
  end.

Definition in_range (lo hi c : ascii) : bool :=
  (nat_of_ascii lo <=? nat_of_ascii c) && (nat_of_ascii c <=? nat_of_ascii hi).

(** The loop of a starred pattern: [step] matches the pattern under the
    star once, [k] is what remains to be matched after the star.  As many
    turns as possible are tried first; a turn that does not advance is not
    taken. *)
Fixpoint star_loop
    (step : nat -> caps -> (nat -> caps -> option (nat * caps))
            -> option (nat * caps))
    (k : nat -> caps -> option (nat * caps))
    (fuel : nat) (pos : nat) (c : caps) : option (nat * caps) :=
  match fuel with
  | O => k pos c
  | S fuel' =>
      match
        step pos c
          (fun pos' c' =>
             if pos' <=? pos then None else star_loop step k fuel' pos' c')
      with
      | Some res => Some res
      | None => k pos c
      end
  end.

(** Greedy backtracking in continuation-passing style: [k] is what remains
    to be matched after [r]. *)
Fixpoint run (r : regex) (s : str) (pos : nat) (c : caps)
    (k : nat -> caps -> option (nat * caps)) {struct r}
    : option (nat * caps) :=
  match r with
  | REps => k pos c
  | RChar a =>
      match nth_error s pos with
      | Some b => if ch_eqb a b then k (S pos) c else None
      | None => None
      end
  | RAny =>
      match nth_error s pos with
      | Some b => if ch_eqb b (ascii_of_nat 10) then None else k (S pos) c
      | None => None
      end
  | RRange lo hi =>
      match nth_error s pos with
      | Some b => if in_range lo hi b then k (S pos) c else None
      | None => None
      end
  | RCat r1 r2 => run r1 s pos c (fun pos' c' => run r2 s pos' c' k)
  | RAlt r1 r2 =>
      match run r1 s pos c k with
      | Some res => Some res
      | None => run r2 s pos c k
      end
  | RStar r1 => star_loop (run r1 s) k (length s) pos c
  | RGroup index r1 =>
      run r1 s pos c (fun pos' c' => k pos' (set_cap index (pos, pos') c'))
  end.

(** A continuation whose results satisfy [Q] when it is called at or after
    [pos], within the string [s]. *)
Definition kont_ok (s : str) (Q : nat * caps -> Prop) (pos : nat)
    (k : nat -> caps -> option (nat * caps)) : Prop :=
  forall pos' c' res,
    pos <= pos' <= length s -> k pos' c' = Some res -> Q res.

(** The compiled form of a syntax tree. *)
Definition compile_regex (r : regex) : Pattern :=
  {| groups := ngroups r;
     groupindex := fun _ => None;
     match_at := fun s pos must_advance =>
       match
         run r s pos (repeat None (ngroups r))
           (fun pos' c =>
              if must_advance && (pos' =? pos) then None else Some (pos', c))
       with
       | Some (e, c) => Some {| m_start := pos; m_end := e; m_spans := c |}
       | None => None
       end |}.

End Re.

(* ================================================================== *)
(** ** The script *)

Module BatchRename.
Import PyStr Re.

(** The exceptions that can end a run.  [ReError] covers what [re] raises
    for a pattern or a template it refuses. *)
Inductive exn : Type :=
| ValueError
| TypeError
| IndexError
| ReError
| OSError.

Inductive result (A : Type) : Type :=
| Ok (a : A)
| Raise (e : exn).

Arguments Ok {A} a.
Arguments Raise {A} e.

(** What the script is run on: a file system with [pathlib.Path.rename],
    [glob.glob] and [os.walk], and the compiler of [re]. *)
Class Platform : Type := {
  FS : Type;
  path_rename : str -> str -> FS -> result FS;
  glob_glob : str -> FS -> list str;
  os_walk : str -> FS -> list (str * list str * list str);
  re_compile : str -> Z -> result Pattern
}.

(** [class BatchRenameArgs] *)
Record BatchRenameArgs : Type := {
  arg_dry_run : bool;
  arg_walk : str;
  arg_glob : option str;
  arg_ignore_case : bool;
  arg_zero_pad : Z;
  arg_renumber_group : option str;
  arg_renumber_from : Z;
  arg_verbose : Z;
  arg_test : bool;
  arg_pattern : str;
  arg_replacement : str;
  arg_files : list str
}.

(** [class BatchRenameConfig].  [files] is the sequence the generator
    yields; the logger is represented by the [Log] events of a run. *)
Record BatchRenameConfig : Type := {
  pattern : str;
  replacement : str;
  files : list str;
  renumber_from : Z;
  renumber_offset : Z;
  zero_pad : Z;
  renumber_match_group : option Z;
  regex_flags : Z;
  dry_run : bool
}.

(** [re.IGNORECASE] *)
Definition IGNORECASE : Z := 2.

(** *** Observable effects *)

Inductive level : Type := DEBUG | INFO.

(** An argument of a log call: [repr] of a string, or an integer. *)
Inductive arg : Type :=
| Repr (s : str)
| Int (n : Z).

(** A call of the logger, a line printed on standard output, or a call of
    [pathlib.Path(old).rename(new)]. *)
Inductive event : Type :=
| Log (lvl : level) (fmt : str) (args : list arg)
| Print (line : str)
| Rename (old new : str).

Section WithPlatform.
Context {P : Platform}.

Record world : Type := {
  w_fs : FS;
  w_trace : list event
}.

(** The lines printed so far. *)
Definition printed (w : world) : list str :=
  flat_map (fun e => match e with Print l => [l] | _ => [] end) (w_trace w).

(** The calls of [rename] made so far. *)
Definition renames (w : world) : list (str * str) :=
  flat_map (fun e => match e with Rename a b => [(a, b)] | _ => [] end)
    (w_trace w).

(** The world after one more event. *)
Definition logged (w : world) (e : event) : world :=
  {| w_fs := w_fs w; w_trace := w_trace w ++ [e] |}.

(** State and exceptions: an exception keeps the effects made so far. *)
Definition M (A : Type) : Type := world -> result A * world.

Definition ret {A} (a : A) : M A := fun w => (Ok a, w).

Definition bind {A B} (c : M A) (k : A -> M B) : M B :=
  fun w =>
    match c w with
    | (Ok a, w') => k a w'
    | (Raise e, w') => (Raise e, w')
    end.

Definition raise {A} (e : exn) : M A := fun w => (Raise e, w).

Definition lift {A} (r : result A) : M A := fun w => (r, w).

Definition emit (e : event) : M unit := fun w => (Ok tt, logged w e).

Definition fs_rename (old new : str) : M unit :=
  fun w =>
    let w' := logged w (Rename old new) in
    match path_rename old new (w_fs w) with
    | Ok fs' => (Ok tt, {| w_fs := fs'; w_trace := w_trace w' |})
    | Raise e => (Raise e, w')
    end.

End WithPlatform.

Notation "x <- c ;; k" := (bind c (fun x => k))
  (at level 61, c at next level, right associativity).
Notation "c ;;; k" := (bind c (fun _ => k))
  (at level 61, right associativity).

(** *** Sources of file names *)

(** [os.path.join(a, b)] *)
Definition path_join (a b : str) : str :=
  if startswith "/" b then b
  else
    match rev a with
    | [] => b
    | c :: _ => if ch_eqb c "/" then a ++ b else a ++ "/" ++ b
    end.

Section Sources.
Context {P : Platform}.

(** [walk_tree(root)] *)
Definition walk_tree (root : str) (fs : FS) : list str :=
  flat_map
    (fun '(path, dirnames, filenames) =>
       map (path_join path) dirnames ++ map (path_join path) filenames)
    (os_walk root fs).

(** The loop of [gen_files] over a non-empty [files]: the first ["-"]
    yields the lines of standard input, stripped, and uses them up. *)
Fixpoint gen_explicit (files : list str) (stdin : list str) : list str :=
  match files with
  | [] => []
  | f :: rest =>
      if str_eqb f "-" then map strip stdin ++ gen_explicit rest []
      else f :: gen_explicit rest stdin
  end.

(** [gen_files(files, glob_expr, walk_root)]: the sequence it yields, given
    the lines on standard input and the file system. *)
Definition gen_files (files : list str) (glob_expr : option str)
    (walk_root : str) (stdin : list str) (fs : FS) : list str :=
  match files with
  | _ :: _ => gen_explicit files stdin
  | [] =>
      match glob_expr with
      | Some (c :: g) => glob_glob (c :: g) fs
      | _ => walk_tree walk_root fs
      end
  end.

End Sources.

(** *** The renumbering argument *)

Definition digits1 : regex := RPlus (RRange "0" "9").

(** The pattern [([0-9]+)(?:(\+|-)([0-9]+))?] of [init_renumbering]. *)
Definition renumber_re : Pattern :=
  compile_regex
    (RCat (RGroup 1 digits1)
       (ROpt (RCat (RGroup 2 (RAlt (RChar "+") (RChar "-")))
                (RGroup 3 digits1)))).

(** [int(x)] for [x] a string or [None]. *)
Definition py_int (x : option str) : result Z :=
  match x with
  | None => Raise TypeError
  | Some s =>
      match int_of_str s with
      | Some n => Ok n
      | None => Raise ValueError
      end
  end.

Definition result_bind {A B} (r : result A) (k : A -> result B) : result B :=
  match r with
  | Ok a => k a
  | Raise e => Raise e
  end.

(** [m.groups()[k]] *)
Definition groups_nth (s : str) (m : MatchObj) (k : nat) : option str :=
  match group s m (Z.of_nat (S k)) with
  | Some (Some t) => Some t
  | _ => None
  end.

(** [init_renumbering(renumber_group)] *)
Definition init_renumbering (renumber_group : option str)
    : result (option Z * Z) :=
  match renumber_group with
  | None | Some [] => Ok (None, 0%Z)
  | Some s =>
      match pmatch renumber_re s with
      | None => Raise ValueError
      | Some m =>
          result_bind (py_int (groups_nth s m 0)) (fun renumber_match_group =>
          match groups_nth s m 1 with
          | Some sign =>
              if str_eqb sign "+" then
                result_bind (py_int (groups_nth s m 2)) (fun v =>
                Ok (Some renumber_match_group, v))
              else if str_eqb sign "-" then
                result_bind (py_int (groups_nth s m 2)) (fun v =>
                Ok (Some renumber_match_group, (0 - v)%Z))
              else Ok (Some renumber_match_group, 0%Z)
          | None => Ok (Some renumber_match_group, 0%Z)
          end)
      end
  end.

Section Run.
Context {P : Platform}.

(** [init_from_args(args)], given standard input and the file system the
    generator of file names will read. *)
Definition init_from_args (args : BatchRenameArgs) (stdin : list str)
    (fs : FS) : result BatchRenameConfig :=
  let file_generator :=
    gen_files (arg_files args) (arg_glob args) (arg_walk args) stdin fs in
  result_bind (init_renumbering (arg_renumber_group args))
    (fun '(match_group, offset) =>
  Ok {| pattern := arg_pattern args;
        replacement := arg_replacement args;
        files := file_generator;
        renumber_from := arg_renumber_from args;
        renumber_offset := offset;
        zero_pad := arg_zero_pad args;
        renumber_match_group := match_group;
        regex_flags := if arg_ignore_case args then IGNORECASE else 0%Z;
        dry_run := arg_dry_run args |}).


(** The truth value of [cfg.renumber_match_group]: neither [None] nor 0. *)
Definition group_mode (cfg : BatchRenameConfig) : option Z :=
  match renumber_match_group cfg with
  | Some g => if (g =? 0)%Z then None else Some g
  | None => None
  end.

(** [str(n).zfill(cfg.zero_pad)] *)
Definition numeral (cfg : BatchRenameConfig) (n : Z) : str :=
  zfill (str_of_int n) (zero_pad cfg).

(** The first part of the body of the loop of [batch_rename]: the
    replacement with [{n}] resolved, from the match group or from the
    processing order. *)
Definition renumber (cfg : BatchRenameConfig) (matcher : Pattern) (idx : Z)
    (old_file : str) : M str :=
  let replacement_n := replacement cfg in
  match group_mode cfg with
  | Some g =>
      match pmatch matcher old_file with
      | Some m =>
          match group old_file m g with
          | None => raise IndexError
          | Some text =>
              old_n <- lift (py_int text) ;;
              let n := (old_n + renumber_offset cfg)%Z in
              let replacement_n := replace replacement_n "{n}" (numeral cfg n) in
              emit (Log DEBUG "Renumber %d -> %d from match group %d"
                      [Int old_n; Int n; Int g]) ;;;
              ret replacement_n
          end
      | None => ret replacement_n
      end
  | None =>
      let n := idx in
      let replacement_n := replace replacement_n "{n}" (numeral cfg n) in
      emit (Log DEBUG "Renumber to %d from file processing order" [Int n]) ;;;
      ret replacement_n
  end.

(** The escape of the replacement: [{{}] stands for a brace. *)
Definition unescape (replacement_n : str) : str :=
  replace replacement_n "{{}" "{".

(** The last part of the body of the loop: a file whose name does not
    change is passed over, any other is reported (dry run) or renamed. *)
Definition rename_or_skip (cfg : BatchRenameConfig) (old_file new_file : str)
    : M unit :=
  if str_eqb old_file new_file then
    emit (Log DEBUG "Ignoring %s, no change in name" [Repr old_file])
  else if dry_run cfg then
    emit (Log INFO "Rename (dry run): %s -> %s" [Repr old_file; Repr new_file]) ;;;
    emit (Print ("Rename: " ++ old_file ++ " -> " ++ new_file))
  else
    emit (Log INFO "Rename: %s -> %s" [Repr old_file; Repr new_file]) ;;;
    fs_rename old_file new_file.

(** [matcher.sub(replacement_n, old_file)] *)
Definition matcher_sub (matcher : Pattern) (replacement_n old_file : str)
    : M str :=
  match sub matcher replacement_n old_file with
  | Some new_file => ret new_file
  | None => raise ReError
  end.

(** The body of the loop of [batch_rename] for the file [old_file],
    numbered [idx]. *)
Definition process_file (cfg : BatchRenameConfig) (matcher : Pattern)
    (idx : Z) (old_file : str) : M unit :=
  emit (Log DEBUG "Processing %s" [Repr old_file]) ;;;
  replacement_n <- renumber cfg matcher idx old_file ;;
  let replacement_n := unescape replacement_n in
  new_file <- matcher_sub matcher replacement_n old_file ;;
  rename_or_skip cfg old_file new_file.

(** [for idx, old_file in enumerate(files, idx): body] *)
Fixpoint for_enumerate (body : Z -> str -> M unit) (idx : Z)
    (files : list str) : M unit :=
  match files with
  | [] => ret tt
  | old_file :: rest =>
      body idx old_file ;;; for_enumerate body (idx + 1)%Z rest
  end.

(** [batch_rename(cfg)] *)
Definition batch_rename (cfg : BatchRenameConfig) : M unit :=
  matcher <- lift (re_compile (pattern cfg) (regex_flags cfg)) ;;
  for_enumerate (process_file cfg matcher) (renumber_from cfg) (files cfg).

End Run.

(** *** The rest of the script *)

(** The leading decimal digits of a string, and what follows them. *)
Fixpoint span_digits (s : str) : str * str :=
  match s with
  | c :: s' =>
      if isdigit c then let (d, r) := span_digits s' in (c :: d, r)
      else ([], s)
  | [] => ([], [])
  end.

(** The renumbering argument read from left to right without a regular
    expression: digits, then possibly a sign and digits; what follows is
    not looked at. *)
Definition scan_renumbering (s : str) : result (option Z * Z) :=
  let (d1, rest) := span_digits s in
  match d1 with
  | [] => Raise ValueError
  | _ :: _ =>
      result_bind (py_int (Some d1)) (fun g =>
      match rest with
      | sign :: rest2 =>
          match fst (span_digits rest2) with
          | [] => Ok (Some g, 0%Z)
          | d2 =>
              if ch_eqb sign "+" then
                result_bind (py_int (Some d2)) (fun v => Ok (Some g, v))
              else if ch_eqb sign "-" then
                result_bind (py_int (Some d2)) (fun v => Ok (Some g, (0 - v)%Z))
              else Ok (Some g, 0%Z)
          end
      | [] => Ok (Some g, 0%Z)
      end)
  end.

(** The match of the pattern of [init_renumbering] at the start of [s],
    written without the engine: the digits, and a sign with digits after
    it when both are there. *)
Definition renumber_match (s : str) : option MatchObj :=
  let d1 := fst (span_digits s) in
  let n1 := length d1 in
  let plain :=
    Some {| m_start := 0; m_end := n1; m_spans := [Some (0, n1); None; None] |} in
  match d1 with
  | [] => None
  | _ :: _ =>
      match snd (span_digits s) with
      | sign :: rest2 =>
          let d2 := fst (span_digits rest2) in
          match d2 with
          | [] => plain
          | _ :: _ =>
              if ch_eqb sign "+" || ch_eqb sign "-" then
                Some {| m_start := 0;
                        m_end := S n1 + length d2;
                        m_spans := [Some (0, n1); Some (n1, S n1);
                                    Some (S n1, S n1 + length d2)] |}
              else plain
          end
      | [] => plain
      end
  end.

(** [sys.int_info.default_max_str_digits]: where the interpreter limits
    the conversion between [int] and [str], longer numerals make [int()]
    and [str()] raise [ValueError].  The theorems that depend on a
    conversion going through assume their numerals within this limit. *)
Definition max_str_digits : nat := 4300.

(** The levels of [logging]. *)
Definition NOTSET : Z := 0.
Definition WARNING : Z := 30.

Definition level_no (lvl : level) : Z :=
  match lvl with
  | DEBUG => 10
  | INFO => 20
  end.

(** [init_logger(verbose_level)]: the level it sets on the logger of the
    script. *)
Definition init_logger (verbose_level : Z) : Z :=
  if (1 <? verbose_level)%Z then level_no DEBUG
  else if negb (verbose_level =? 0)%Z then level_no INFO
  else NOTSET.

(** [Logger.getEffectiveLevel()]: a logger left at [NOTSET] has the level
    of the root logger, which [logging.basicConfig(format=...)] leaves at
    [WARNING]. *)
Definition effective_level (own : Z) : Z :=
  if (own =? NOTSET)%Z then WARNING else own.

(** Whether a logger set to [own] lets the event through. *)
Definition shown (own : Z) (e : event) : bool :=
  match e with
  | Log lvl _ _ => (effective_level own <=? level_no lvl)%Z
  | _ => false
  end.

Definition is_log (e : event) : bool :=
  match e with
  | Log _ _ _ => true
  | _ => false
  end.

Definition is_info (e : event) : bool :=
  match e with
  | Log INFO _ _ => true
  | _ => false
  end.

(** The line a dry run prints for a rename. *)
Definition preview_line (pair : str * str) : str :=
  "Rename: " ++ fst pair ++ " -> " ++ snd pair.

(** [cfg] with another [dry_run]. *)
Definition set_dry_run (cfg : BatchRenameConfig) (b : bool)
    : BatchRenameConfig :=
  {| pattern := pattern cfg;
     replacement := replacement cfg;
     files := files cfg;
     renumber_from := renumber_from cfg;
     renumber_offset := renumber_offset cfg;
     zero_pad := zero_pad cfg;
     renumber_match_group := renumber_match_group cfg;
     regex_flags := regex_flags cfg;
     dry_run := b |}.

Section Main.
Context {P : Platform}.

(** The world after more events. *)
Definition append_events (w : world) (evs : list event) : world :=
  {| w_fs := w_fs w; w_trace := w_trace w ++ evs |}.

(** The [INFO] records logged so far. *)
Definition infos (w : world) : list event := filter is_info (w_trace w).

(** What a dry run leaves alone. *)
Definition untouched (w w' : world) : Prop :=
  w_fs w' = w_fs w /\ renames w' = renames w.

(** Events that are all [DEBUG] records. *)
Definition debug_only (evs : list event) : Prop :=
  forall e, In e evs -> exists fmt args, e = Log DEBUG fmt args.

(** The pairs announced by the [INFO] records logged so far. *)
Definition announced (w : world) : list (str * str) :=
  flat_map
    (fun e =>
       match e with
       | Log INFO _ [Repr a; Repr b] => [(a, b)]
       | _ => []
       end) (w_trace w).

(** The file system after the calls of [rename] in [pairs], made in
    order. *)
Fixpoint apply_renames (pairs : list (str * str)) (fs : FS) : result FS :=
  match pairs with
  | [] => Ok fs
  | (old, new) :: rest =>
      match path_rename old new fs with
      | Ok fs' => apply_renames rest fs'
      | Raise e => Raise e
      end
  end.

(** The records of a run that the logger [init_logger(verbose_level)]
    returns lets through to the handler. *)
Definition displayed (verbose_level : Z) (w : world) : list event :=
  filter (shown (init_logger verbose_level)) (w_trace w).

(** [main()], once the command line is parsed into [args]. *)
Definition main (args : BatchRenameArgs) (stdin : list str) : M unit :=
  fun w =>
    if arg_test args then (Raise ValueError, w)
    else
      (cfg <- lift (init_from_args args stdin (w_fs w)) ;;
       batch_rename cfg) w.

End Main.

End BatchRename.

(* ================================================================== *)
(** ** A platform for examples *)

Module Example.
Import PyStr Re BatchRename.

(** The pattern [file_(\d+)\.txt] of the script's tests. *)
Definition file_re : regex :=
  RCat (RLit "file_") (RCat (RGroup 1 digits1) (RLit ".txt")).

(** [(\d?)\{n\}] *)
Definition token_re : regex :=
  RCat (RGroup 1 (ROpt (RRange "0" "9"))) (RLit "{n}").

(** [x(\d+)?] *)
Definition optional_re : regex :=
  RCat (RChar "x") (ROpt (RGroup 1 digits1)).

(** [a] *)
Definition plain_re : regex := RChar "a".

Definition compile_known (pat : str) (flags : Z) : result Pattern :=
  if str_eqb pat "file_(\d+)\.txt" then Ok (compile_regex file_re)
  else if str_eqb pat "(\d?)\{n\}" then Ok (compile_regex token_re)
  else if str_eqb pat "x(\d+)?" then Ok (compile_regex optional_re)
  else if str_eqb pat "a" then Ok (compile_regex plain_re)
  else Raise ReError.

Definition remove_name (name : str) (fs : list str) : list str :=
  filter (fun f => negb (str_eqb f name)) fs.

(** One flat directory, given by the names in it.  Renaming a name that is
    not there fails; a target that is there is replaced. *)
#[export] Instance flat : Platform := {|
  FS := list str;
  path_rename := fun old new fs =>
    if existsb (str_eqb old) fs
    then Ok (new :: remove_name new (remove_name old fs))
    else Raise OSError;
  glob_glob := fun expr fs => filter (str_eqb expr) fs;
  os_walk := fun root fs => [(root, [], fs)];
  re_compile := compile_known
|}.


Definition with_rule (a : BatchRenameArgs) (pat repl : str)
    (fls : list str) : BatchRenameArgs :=
  {| arg_dry_run := arg_dry_run a;
     arg_walk := arg_walk a;
     arg_glob := arg_glob a;
     arg_ignore_case := arg_ignore_case a;
     arg_zero_pad := arg_zero_pad a;
     arg_renumber_group := arg_renumber_group a;
     arg_renumber_from := arg_renumber_from a;
     arg_verbose := arg_verbose a;
     arg_test := arg_test a;
     arg_pattern := pat;
     arg_replacement := repl;
     arg_files := fls |}.

Definition with_numbering (a : BatchRenameArgs) (from pad : Z)
    (grp : option str) : BatchRenameArgs :=
  {| arg_dry_run := arg_dry_run a;
     arg_walk := arg_walk a;
     arg_glob := arg_glob a;
     arg_ignore_case := arg_ignore_case a;
     arg_zero_pad := pad;
     arg_renumber_group := grp;
     arg_renumber_from := from;
     arg_verbose := arg_verbose a;
     arg_test := arg_test a;
     arg_pattern := arg_pattern a;
     arg_replacement := arg_replacement a;
     arg_files := arg_files a |}.

Definition with_dry_run (a : BatchRenameArgs) (b : bool) : BatchRenameArgs :=
  {| arg_dry_run := b;
     arg_walk := arg_walk a;
     arg_glob := arg_glob a;
     arg_ignore_case := arg_ignore_case a;
     arg_zero_pad := arg_zero_pad a;
     arg_renumber_group := arg_renumber_group a;
     arg_renumber_from := arg_renumber_from a;
     arg_verbose := arg_verbose a;
     arg_test := arg_test a;
     arg_pattern := arg_pattern a;
     arg_replacement := arg_replacement a;
     arg_files := arg_files a |}.

(** What [make_argparser().parse_args] gives for the positional arguments
    alone: every option at its default. *)
Definition parsed (pat repl : str) (fls : list str) : BatchRenameArgs :=
  {| arg_dry_run := false;
     arg_walk := ".";
     arg_glob := None;
     arg_ignore_case := false;
     arg_zero_pad := 1;
     arg_renumber_group := None;
     arg_renumber_from := 1;
     arg_verbose := 0;
     arg_test := false;
     arg_pattern := pat;
     arg_replacement := repl;
     arg_files := fls |}.

Definition start (fs : list str) : world := {| w_fs := fs; w_trace := [] |}.

(** [init_from_args] and then [batch_rename], as [main] does. *)
Definition run_args (a : BatchRenameArgs) (stdin fs : list str)
    : result unit * world :=
  match init_from_args a stdin fs with
  | Ok cfg => batch_rename cfg (start fs)
  | Raise e => (Raise e, start fs)
  end.

(** Compiled patterns and configurations used in the examples. *)
Definition file_pattern : Pattern := compile_regex file_re.
Definition token_pattern : Pattern := compile_regex token_re.

(** The rule of the test [test_renumber_reorder]. *)
Definition order_cfg : BatchRenameConfig :=
  {| pattern := "file_(\d+)\.txt";
     replacement := "{n}-file.txt";
     files := ["file_200.txt"; "file_300.txt"];
     renumber_from := 17;
     renumber_offset := 0;
     zero_pad := 3;
     renumber_match_group := None;
     regex_flags := 0;
     dry_run := true |}.

(** The rule of the test [test_renumber_group]. *)
Definition group_cfg : BatchRenameConfig :=
  {| pattern := "file_(\d+)\.txt";
     replacement := "{n}-file.txt";
     files := ["file_200.txt"];
     renumber_from := 1;
     renumber_offset := -150;
     zero_pad := 1;
     renumber_match_group := Some 1%Z;
     regex_flags := 0;
     dry_run := true |}.

(** A rule numbered from group 1, with the given pattern and template. *)
Definition group1_cfg (pat repl : str) (dry : bool) : BatchRenameConfig :=
  {| pattern := pat;
     replacement := repl;
     files := [];
     renumber_from := 1;
     renumber_offset := 0;
     zero_pad := 1;
     renumber_match_group := Some 1%Z;
     regex_flags := 0;
     dry_run := dry |}.

(** The rule of [test_renumber_reorder] with an escaped [{n}] in the
    template. *)
Definition escape_cfg : BatchRenameConfig :=
  {| pattern := "file_(\d+)\.txt";
     replacement := "{n}-{{}n}.txt";
     files := ["file_200.txt"];
     renumber_from := 17;
     renumber_offset := 0;
     zero_pad := 3;
     renumber_match_group := None;
     regex_flags := 0;
     dry_run := true |}.

End Example.

(* ================================================================== *)
(** ** Properties of the sources of file names and of the argument parser *)

Import PyStr Re BatchRename.
Open Scope str_scope.
Open Scope list_scope.

Section SourceFacts.
Context {P : Platform}.

Lemma gen_explicit_plain (files stdin : list str) :
  forallb (fun f => negb (str_eqb f "-")) files = true ->
  gen_explicit files stdin = files.
Proof.
  induction files as [|f rest IH]; simpl; intros H; [reflexivity|].
  apply andb_true_iff in H as [Hf Hrest].
  destruct (str_eqb f "-"); [discriminate|].
  now rewrite IH.
Qed.

Lemma gen_explicit_exhausted (files : list str) :
  gen_explicit files [] = filter (fun f => negb (str_eqb f "-")) files.
Proof.
  induction files as [|f rest IH]; simpl; [reflexivity|].
  destruct (str_eqb f "-"); simpl; now rewrite IH.
Qed.

(** What [gen_files] yields around the first ["-"]: the arguments before
    it, the lines of standard input, and the arguments after it. *)
Lemma gen_explicit_dash (before after stdin : list str) :
  forallb (fun f => negb (str_eqb f "-")) before = true ->
  gen_explicit (before ++ "-" :: after) stdin
  = before ++ map strip stdin
    ++ filter (fun f => negb (str_eqb f "-")) after.
Proof.
  induction before as [|f rest IH]; simpl; intros H.
  - now rewrite gen_explicit_exhausted.
  - apply andb_true_iff in H as [Hf Hrest].
    destruct (str_eqb f "-"); [discriminate|].
    now rewrite IH.
Qed.

(** C1.  For arguments with a hyphen among them, [gen_files] yields the
    arguments before the first hyphen, then the stripped lines of standard
    input, then the arguments after it that are not hyphens: the literal
    arguments around the hyphen are yielded as well, whereas the claim (and
    the docstring: standard input "instead") has the lines of standard
    input only. *)
Theorem gen_files_dash_keeps_literal_arguments (before after : list str)
    (glob_expr : option str) (walk_root : str) (stdin : list str) (fs : FS) :
  forallb (fun f => negb (str_eqb f "-")) before = true ->
  gen_files (before ++ "-" :: after) glob_expr walk_root stdin fs
  = before ++ map strip stdin
    ++ filter (fun f => negb (str_eqb f "-")) after.
Proof.
  intros H. unfold gen_files.
  destruct (before ++ "-" :: after) as [|f rest] eqn:E.
  - now destruct before.
  - rewrite <- E. now apply gen_explicit_dash.
Qed.

End SourceFacts.

(** The arguments [a - b] with the one line [x] on standard input. *)
Lemma gen_files_dash_keeps_literal_arguments_witness :
  forallb (fun f => negb (str_eqb f "-")) ["a"] = true
  /\ gen_files ["a"; "-"; "b"] None "." ["x" ++ [ascii_of_nat 10]]
       (["a"; "b"] : @FS Example.flat)
     = ["a"; "x"; "b"].
Proof.
  assert (H : forallb (fun f => negb (str_eqb f "-")) ["a"] = true)
    by reflexivity.
  refine (conj H _).
  exact (@gen_files_dash_keeps_literal_arguments Example.flat ["a"] ["b"]
           None "." ["x" ++ [ascii_of_nat 10]] ["a"; "b"] H).
Defined.

(** A first character that is not a digit is refused. *)
Lemma init_renumbering_not_digit (c : ascii) (s : str) :
  isdigit c = false -> init_renumbering (Some (c :: s)) = Raise ValueError.
Proof.
  intros H. unfold init_renumbering, pmatch, renumber_re, compile_regex.
  cbn [match_at]. unfold digits1, RPlus. cbn [run nth_error ngroups].
  unfold in_range.
  change (nat_of_ascii "0") with 48. change (nat_of_ascii "9") with 57.
  unfold isdigit in H. rewrite H. reflexivity.
Qed.

(** C3.  [init_renumbering] takes ["2-"] (a sign with no digits after it)
    and ["2abc"] for group 2 with offset 0 instead of raising: the pattern
    is matched at the start of the argument and what follows the match is
    not looked at.  An argument that does not start with a digit raises
    [ValueError], and an absent or empty one selects numbering by order. *)
Theorem init_renumbering_ignores_trailing_text :
  init_renumbering (Some "2-") = Ok (Some 2%Z, 0%Z)
  /\ init_renumbering (Some "2abc") = Ok (Some 2%Z, 0%Z)
  /\ init_renumbering (Some "2+x") = Ok (Some 2%Z, 0%Z)
  /\ init_renumbering (Some "x2") = Raise ValueError
  /\ init_renumbering (Some "-3") = Raise ValueError
  /\ init_renumbering (Some "1-150") = Ok (Some 1%Z, (-150)%Z)
  /\ init_renumbering (Some "3+7") = Ok (Some 3%Z, 7%Z)
  /\ init_renumbering (Some "") = Ok (None, 0%Z)
  /\ init_renumbering None = Ok (None, 0%Z).
Proof. repeat split; vm_compute; reflexivity. Qed.

(* ================================================================== *)
(** ** Properties of the loop of [batch_rename] *)

Section RunFacts.
Context {P : Platform}.

Lemma printed_logged (w : world) (e : event) :
  printed (logged w e)
  = printed w ++ match e with Print l => [l] | _ => [] end.
Proof.
  unfold printed, logged; simpl. rewrite flat_map_app; simpl.
  now rewrite app_nil_r.
Qed.

Lemma renames_logged (w : world) (e : event) :
  renames (logged w e)
  = renames w ++ match e with Rename a b => [(a, b)] | _ => [] end.
Proof.
  unfold renames, logged; simpl. rewrite flat_map_app; simpl.
  now rewrite app_nil_r.
Qed.

Lemma printed_log (w : world) lvl fmt args :
  printed (logged w (Log lvl fmt args)) = printed w.
Proof. rewrite printed_logged. apply app_nil_r. Qed.

Lemma renames_log (w : world) lvl fmt args :
  renames (logged w (Log lvl fmt args)) = renames w.
Proof. rewrite renames_logged. apply app_nil_r. Qed.

(** The loop over [before ++ after] is the loop over [before] followed by
    the loop over [after], whose numbering starts [length before] later. *)
Lemma for_enumerate_app (body : Z -> str -> M unit) (before after : list str) :
  forall (idx : Z) (w : world),
    for_enumerate body idx (before ++ after) w
    = (for_enumerate body idx before ;;;
       for_enumerate body (idx + Z.of_nat (length before))%Z after) w.
Proof.
  induction before as [|f rest IH]; intros idx w.
  - simpl. unfold bind, ret. now rewrite Z.add_0_r.
  - cbn [app for_enumerate length]. unfold bind.
    destruct (body idx f w) as [[[]|e] w1]; [|reflexivity].
    rewrite IH. unfold bind.
    replace (idx + 1 + Z.of_nat (length rest))%Z
      with (idx + Z.of_nat (S (length rest)))%Z by lia.
    reflexivity.
Qed.


(** In numbering by order the replacement has [{n}] replaced by the
    numeral of the index, whatever the file and the pattern. *)
Lemma renumber_by_order (cfg : BatchRenameConfig) (matcher : Pattern)
    (idx : Z) (old_file : str) (w : world) :
  group_mode cfg = None ->
  renumber cfg matcher idx old_file w
  = (Ok (replace (replacement cfg) "{n}" (numeral cfg idx)),
     logged w (Log DEBUG "Renumber to %d from file processing order" [Int idx])).
Proof. intros H. unfold renumber. now rewrite H. Qed.

(** [renumber] only logs: it prints nothing, renames nothing and leaves the
    file system as it is. *)
Lemma renumber_frame (cfg : BatchRenameConfig) (matcher : Pattern)
    (idx : Z) (old_file : str) (w w' : world) (r : result str) :
  renumber cfg matcher idx old_file w = (r, w') ->
  w_fs w' = w_fs w /\ printed w' = printed w /\ renames w' = renames w.
Proof.
  unfold renumber.
  destruct (group_mode cfg) as [g|].
  - destruct (pmatch matcher old_file) as [m|].
    + destruct (group old_file m g) as [text|].
      * unfold bind, lift, emit, ret.
        destruct (py_int text) as [n|e]; intros [= <- <-];
          now rewrite ?printed_log, ?renames_log.
      * unfold raise. intros [= <- <-]. auto.
    + unfold ret. intros [= <- <-]. auto.
  - unfold bind, emit, ret. intros [= <- <-].
    now rewrite printed_log, renames_log.
Qed.

(** The replacement [renumber] returns is the template itself or the
    template with [{n}] replaced by some numeral. *)
Lemma renumber_result (cfg : BatchRenameConfig) (matcher : Pattern)
    (idx : Z) (old_file : str) (w w' : world) (repl : str) :
  renumber cfg matcher idx old_file w = (Ok repl, w') ->
  repl = replacement cfg
  \/ exists n, repl = replace (replacement cfg) "{n}" (numeral cfg n).
Proof.
  unfold renumber.
  destruct (group_mode cfg) as [g|].
  - destruct (pmatch matcher old_file) as [m|].
    + destruct (group old_file m g) as [text|].
      * unfold bind, lift, emit, ret.
        destruct (py_int text) as [n|e]; intros [= <- <-].
        right. eexists. reflexivity.
      * unfold raise. intros [=].
    + unfold ret. intros [= <- <-]. now left.
  - unfold bind, emit, ret. intros [= <- <-]. right. eexists. reflexivity.
Qed.

(** The body of the loop, in terms of its parts. *)
Lemma process_file_unfold (cfg : BatchRenameConfig) (matcher : Pattern)
    (idx : Z) (old_file : str) (w : world) :
  process_file cfg matcher idx old_file w
  = match
      renumber cfg matcher idx old_file
        (logged w (Log DEBUG "Processing %s" [Repr old_file]))
    with
    | (Ok repl, w1) =>
        (new_file <- matcher_sub matcher (unescape repl) old_file ;;
         rename_or_skip cfg old_file new_file) w1
    | (Raise e, w1) => (Raise e, w1)
    end.
Proof. reflexivity. Qed.

(** The body of the loop, once [renumber] has returned [repl] and the
    substitution [new_file]. *)
Lemma process_file_steps (cfg : BatchRenameConfig) (matcher : Pattern)
    (idx : Z) (old_file repl new_file : str) (w w1 : world) :
  renumber cfg matcher idx old_file
    (logged w (Log DEBUG "Processing %s" [Repr old_file])) = (Ok repl, w1) ->
  sub matcher (unescape repl) old_file = Some new_file ->
  process_file cfg matcher idx old_file w
  = rename_or_skip cfg old_file new_file w1.
Proof.
  intros Hn Hs. rewrite process_file_unfold, Hn.
  unfold bind, matcher_sub. rewrite Hs. reflexivity.
Qed.

Lemma str_eqb_refl (s : str) : str_eqb s s = true.
Proof.
  induction s as [|c s IH]; simpl; [reflexivity|].
  unfold ch_eqb. now rewrite Ascii.eqb_refl.
Qed.

Lemma str_eqb_eq (a b : str) : str_eqb a b = true <-> a = b.
Proof.
  split; [|intros ->; apply str_eqb_refl].
  revert b. induction a as [|x a IH]; destruct b as [|y b]; simpl;
    try discriminate; [reflexivity|].
  intros H. apply andb_true_iff in H as [Hc Hs].
  apply Ascii.eqb_eq in Hc. subst. f_equal. now apply IH.
Qed.

End RunFacts.

(* ================================================================== *)
(** ** Numbering *)

Import Example.

Lemma nth_error_split_at {A} (l : list A) (n : nat) (x : A) :
  nth_error l n = Some x -> l = firstn n l ++ x :: skipn (S n) l.
Proof.
  revert l. induction n as [|n IH]; intros [|y l]; simpl; try discriminate.
  - now intros [= ->].
  - intros H. f_equal. now apply IH.
Qed.

Section Numbering.
Context {P : Platform}.

(** C4.  In numbering by order, the loop over a sequence of files splits
    at its [k]-th file into the loop over the files before it, the body for
    that file with index [renumber_from + k - 1], and the loop over the
    files after it from the next index on; and for that file [{n}] is
    replaced by the index as [str(idx).zfill(zero_pad)], whatever the file
    and whether or not the pattern matches it. *)
Theorem order_numeral_of_kth_file (cfg : BatchRenameConfig)
    (matcher : Pattern) (fls : list str) (k : nat) (f : str) :
  group_mode cfg = None ->
  (1 <= k)%nat ->
  nth_error fls (k - 1) = Some f ->
  let idx := (renumber_from cfg + Z.of_nat k - 1)%Z in
  let body := process_file cfg matcher in
  let replacement_n :=
    replace (replacement cfg) "{n}" (zfill (str_of_int idx) (zero_pad cfg)) in
  (forall w,
     for_enumerate body (renumber_from cfg) fls w
     = (for_enumerate body (renumber_from cfg) (firstn (k - 1) fls) ;;;
        body idx f ;;;
        for_enumerate body (idx + 1)%Z (skipn k fls)) w)
  /\ (forall w,
        renumber cfg matcher idx f w
        = (Ok replacement_n,
           logged w
             (Log DEBUG "Renumber to %d from file processing order" [Int idx])))
  /\ (forall w,
        process_file cfg matcher idx f w
        = (new_file <- matcher_sub matcher (unescape replacement_n) f ;;
           rename_or_skip cfg f new_file)
            (logged (logged w (Log DEBUG "Processing %s" [Repr f]))
               (Log DEBUG "Renumber to %d from file processing order"
                  [Int idx]))).
Proof.
  intros Hmode Hk Hnth idx body replacement_n. repeat split.
  - intros w. rewrite (nth_error_split_at _ _ _ Hnth) at 1.
    rewrite for_enumerate_app.
    assert (Hlen : length (firstn (k - 1) fls) = (k - 1)%nat).
    { apply firstn_length_le. apply Nat.lt_le_incl.
      apply nth_error_Some. now rewrite Hnth. }
    rewrite Hlen. replace (S (k - 1)) with k by lia.
    replace (renumber_from cfg + Z.of_nat (k - 1))%Z with idx
      by (unfold idx; lia).
    reflexivity.
  - intros w. now apply renumber_by_order.
  - intros w. rewrite process_file_unfold.
    rewrite renumber_by_order by assumption. reflexivity.
Qed.


End Numbering.

(** At the second of the two files of the test, numbered from 17 with
    three digits. *)
Lemma order_numeral_of_kth_file_witness :
  group_mode order_cfg = None
  /\ (1 <= 2)%nat
  /\ nth_error (files order_cfg) (2 - 1) = Some "file_300.txt"
  /\ forall w,
       renumber order_cfg file_pattern 18 "file_300.txt" w
       = (Ok "018-file.txt",
          logged w
            (Log DEBUG "Renumber to %d from file processing order" [Int 18])).
Proof.
  assert (H1 : group_mode order_cfg = None) by reflexivity.
  assert (H2 : (1 <= 2)%nat) by lia.
  assert (H3 : nth_error (files order_cfg) (2 - 1) = Some "file_300.txt")
    by reflexivity.
  refine (conj H1 (conj H2 (conj H3 _))).
  exact (proj1 (proj2
    (@order_numeral_of_kth_file flat order_cfg file_pattern (files order_cfg)
       2 "file_300.txt" H1 H2 H3))).
Defined.


(* ================================================================== *)
(** ** Unchanged names, and group 0 *)

Section Decisions.
Context {P : Platform}.

(** C7.  When the name computed for a file equals its old name, the body of
    the loop ends normally having only logged: the file system is as
    before, no call of [rename] has been made and nothing has been printed,
    in a dry run or not; and the loop goes on with the next file and the
    next index. *)
Theorem unchanged_name_is_passed_over (cfg : BatchRenameConfig)
    (matcher : Pattern) (idx : Z) (f new_file repl : str) (rest : list str)
    (w w1 : world) :
  renumber cfg matcher idx f (logged w (Log DEBUG "Processing %s" [Repr f]))
  = (Ok repl, w1) ->
  sub matcher (unescape repl) f = Some new_file ->
  new_file = f ->
  let w' := logged w1 (Log DEBUG "Ignoring %s, no change in name" [Repr f]) in
  process_file cfg matcher idx f w = (Ok tt, w')
  /\ w_fs w' = w_fs w
  /\ renames w' = renames w
  /\ printed w' = printed w
  /\ for_enumerate (process_file cfg matcher) idx (f :: rest) w
     = for_enumerate (process_file cfg matcher) (idx + 1)%Z rest w'.
Proof.
  intros Hn Hs -> w'.
  assert (Hp : process_file cfg matcher idx f w = (Ok tt, w')).
  { rewrite (process_file_steps _ _ _ _ _ _ _ _ Hn Hs).
    unfold rename_or_skip. now rewrite str_eqb_refl. }
  destruct (renumber_frame _ _ _ _ _ _ _ Hn) as (Hfs & Hpr & Hre).
  repeat split.
  - exact Hp.
  - simpl. now rewrite Hfs.
  - unfold w'. now rewrite renames_log, Hre, renames_log.
  - unfold w'. now rewrite printed_log, Hpr, printed_log.
  - simpl. unfold bind. now rewrite Hp.
Qed.


End Decisions.

(** A file the pattern of the test does not match, in third place. *)
Lemma unchanged_name_is_passed_over_witness :
  let w := start ["notes.md"] in
  let w1 :=
    logged (logged w (Log DEBUG "Processing %s" [Repr "notes.md"]))
      (Log DEBUG "Renumber to %d from file processing order" [Int 19]) in
  let w' :=
    logged w1 (Log DEBUG "Ignoring %s, no change in name" [Repr "notes.md"]) in
  renumber order_cfg file_pattern 19 "notes.md"
    (logged w (Log DEBUG "Processing %s" [Repr "notes.md"]))
  = (Ok "019-file.txt", w1)
  /\ sub file_pattern (unescape "019-file.txt") "notes.md" = Some "notes.md"
  /\ process_file order_cfg file_pattern 19 "notes.md" w = (Ok tt, w')
  /\ w_fs w' = ["notes.md"]
  /\ renames w' = []
  /\ printed w' = [].
Proof.
  intros w w1 w'.
  assert (H1 : renumber order_cfg file_pattern 19 "notes.md"
                 (logged w (Log DEBUG "Processing %s" [Repr "notes.md"]))
               = (Ok "019-file.txt", w1)) by reflexivity.
  assert (H2 : sub file_pattern (unescape "019-file.txt") "notes.md"
               = Some "notes.md") by reflexivity.
  refine (conj H1 (conj H2 _)).
  destruct (@unchanged_name_is_passed_over flat order_cfg file_pattern 19
              "notes.md" "notes.md" "019-file.txt" [] w w1 H1 H2 eq_refl)
    as (Hp & Hfs & Hre & Hpr & _).
  exact (conj Hp (conj Hfs (conj Hre Hpr))).
Defined.


(* ================================================================== *)
(** ** The numeral *)

Section Numerals.

(** The digits of a decimal number of the standard library. *)
Let digits_of (d : Decimal.uint) : str :=
  String.list_ascii_of_string (NilEmpty.string_of_uint d).

(** The decimal number whose digits [str_of_int] writes for [n]. *)
Let decimal_of (n : Z) : Decimal.uint :=
  match n with
  | Z0 => Decimal.zero
  | Zpos p | Zneg p => Pos.to_uint p
  end.

Lemma digits_of_isdigit (d : Decimal.uint) : forallb isdigit (digits_of d) = true.
Proof. induction d; simpl; auto. Qed.

Lemma digits_of_not_empty (n : Z) : digits_of (decimal_of n) <> [].
Proof.
  destruct n as [|p|p]; simpl; try discriminate;
    pose proof (DecimalPos.Unsigned.to_uint_nonnil p) as H;
    destruct (Pos.to_uint p); try discriminate; now contradiction H.
Qed.

Lemma str_of_int_abs (n : Z) : str_of_int (Z.abs n) = digits_of (decimal_of n).
Proof.
  destruct n as [|p|p]; try reflexivity; unfold str_of_int; simpl;
    pose proof (DecimalPos.Unsigned.to_uint_nonnil p) as H;
    unfold NilZero.string_of_uint; destruct (Pos.to_uint p);
    try reflexivity; now contradiction H.
Qed.

Lemma str_of_int_sign (n : Z) :
  str_of_int n
  = if (n <? 0)%Z then "-"%char :: str_of_int (Z.abs n)
    else str_of_int (Z.abs n).
Proof. destruct n as [|p|p]; reflexivity. Qed.

Lemma of_uint_decimal_of (n : Z) : Z.of_uint (decimal_of n) = Z.abs n.
Proof.
  destruct n as [|p|p]; try reflexivity; unfold Z.of_uint; simpl;
    now rewrite DecimalPos.Unsigned.of_to.
Qed.

Lemma isdigit_not_underscore (c : ascii) :
  isdigit c = true -> ch_eqb c "_" = false.
Proof.
  intros H. unfold ch_eqb. destruct (Ascii.eqb_spec c "_") as [->|]; auto.
Qed.

Lemma isdigit_not_space (c : ascii) : isdigit c = true -> isspace c = false.
Proof.
  unfold isdigit, isspace. intros H.
  apply andb_true_iff in H as [H1 H2].
  apply Nat.leb_le in H1. apply Nat.leb_le in H2.
  repeat (apply orb_false_iff; split).
  - apply andb_false_iff. right. apply Nat.leb_gt. lia.
  - apply andb_false_iff. right. apply Nat.leb_gt. lia.
  - apply Nat.eqb_neq. lia.
  - apply Nat.eqb_neq. lia.
Qed.

Lemma drop_underscores_digits (s : str) (after_digit : bool) :
  forallb isdigit s = true -> s <> [] ->
  drop_underscores after_digit s = Some s.
Proof.
  revert after_digit. induction s as [|c s IH]; intros b Hd Hne.
  - now contradiction Hne.
  - simpl in Hd. apply andb_true_iff in Hd as [Hc Hs]. simpl.
    rewrite (isdigit_not_underscore _ Hc), Hc.
    destruct s as [|c' s']; [reflexivity|].
    rewrite IH; [reflexivity|assumption|discriminate].
Qed.

Lemma uint_of_padded_digits (k : nat) (d : Decimal.uint) :
  NilEmpty.uint_of_string
    (String.string_of_list_ascii (repeat "0"%char k ++ digits_of d))
  = Some (Nat.iter k Decimal.D0 d).
Proof.
  induction k as [|k IH]; simpl.
  - unfold digits_of. rewrite String.string_of_list_ascii_of_string.
    apply NilEmpty.usu.
  - now rewrite IH.
Qed.

Lemma of_uint_leading_zeros (k : nat) (d : Decimal.uint) :
  Z.of_uint (Nat.iter k Decimal.D0 d) = Z.of_uint d.
Proof. induction k as [|k IH]; simpl; auto. Qed.

Lemma lstrip_id (c : ascii) (s : str) :
  isspace c = false -> lstrip (c :: s) = c :: s.
Proof. intros H. simpl. now rewrite H. Qed.

Lemma strip_id (c z : ascii) (s u : str) :
  isspace c = false -> isspace z = false -> c :: s = u ++ [z] ->
  strip (c :: s) = c :: s.
Proof.
  intros Hc Hz E. unfold strip, rstrip. rewrite (lstrip_id _ _ Hc).
  rewrite E, rev_app_distr. simpl. rewrite Hz. simpl.
  now rewrite rev_involutive.
Qed.

(** [int()] reads a string of zeros and digits as the number of the
    digits. *)
Lemma int_of_padded_digits (k : nat) (n : Z) :
  int_of_digits (repeat "0"%char k ++ digits_of (decimal_of n))
  = Some (Z.abs n).
Proof.
  unfold int_of_digits. rewrite drop_underscores_digits.
  - rewrite uint_of_padded_digits. simpl.
    now rewrite of_uint_leading_zeros, of_uint_decimal_of.
  - rewrite forallb_app, digits_of_isdigit, andb_true_r.
    clear. induction k; simpl; auto.
  - intros E. apply app_eq_nil in E as [_ E].
    now apply digits_of_not_empty in E.
Qed.

(** C8.  For a positive [zero_pad] the numeral of [n] is the sign of a
    negative [n], then zeros, then the decimal digits of [n]: as many zeros
    as the digits and the sign fall short of [zero_pad] characters, and
    none when they do not; so its length is the larger of [zero_pad] and
    the length of [str(n)], nothing of [str(n)] is cut off, and [int()]
    reads it back as [n]. *)
Theorem numeral_is_padded_decimal (cfg : BatchRenameConfig) (n : Z) :
  (0 < zero_pad cfg)%Z ->
  let digits := str_of_int (Z.abs n) in
  let zeros :=
    repeat "0"%char (Z.to_nat (zero_pad cfg) - length (str_of_int n)) in
  numeral cfg n
  = (if (n <? 0)%Z then "-"%char :: zeros ++ digits else zeros ++ digits)
  /\ str_of_int n = (if (n <? 0)%Z then "-"%char :: digits else digits)
  /\ forallb isdigit digits = true
  /\ digits <> []
  /\ int_of_str (numeral cfg n) = Some n
  /\ length (numeral cfg n)
     = Nat.max (length (str_of_int n)) (Z.to_nat (zero_pad cfg))
  /\ ((zero_pad cfg <= Z.of_nat (length (str_of_int n)))%Z ->
      numeral cfg n = str_of_int n).
Proof.
  intros Hpad digits zeros.
  assert (Hsign := str_of_int_sign n). fold digits in Hsign.
  assert (Hdig : forallb isdigit digits = true).
  { unfold digits. rewrite str_of_int_abs. apply digits_of_isdigit. }
  assert (Hne : digits <> []).
  { unfold digits. rewrite str_of_int_abs. apply digits_of_not_empty. }
  assert (Hnum : numeral cfg n
    = (if (n <? 0)%Z then "-"%char :: zeros ++ digits else zeros ++ digits)).
  { unfold numeral, zfill.
    destruct (zero_pad cfg <=? Z.of_nat (length (str_of_int n)))%Z eqn:Hle.
    - apply Z.leb_le in Hle.
      replace zeros with (@nil ascii)
        by (unfold zeros;
            replace (Z.to_nat (zero_pad cfg) - length (str_of_int n))%nat
              with 0%nat by lia; reflexivity).
      exact Hsign.
    - fold zeros. rewrite Hsign. destruct (n <? 0)%Z; [reflexivity|].
      destruct digits as [|c rest]; [now contradiction Hne|].
      simpl in Hdig. apply andb_true_iff in Hdig as [Hc _].
      assert (ch_eqb c "+" || ch_eqb c "-" = false) as ->; [|reflexivity].
      unfold ch_eqb. apply orb_false_iff. split.
      + destruct (Ascii.eqb_spec c "+") as [->|]; auto.
      + destruct (Ascii.eqb_spec c "-") as [->|]; auto. }
  assert (Hlast : exists u z, digits = u ++ [z] /\ isdigit z = true).
  { destruct (exists_last Hne) as (u & z & E). exists u, z. split; [exact E|].
    rewrite E, forallb_app in Hdig. simpl in Hdig.
    apply andb_true_iff in Hdig as [_ Hz].
    now apply andb_true_iff in Hz as [Hz _]. }
  destruct Hlast as (u & z & Elast & Hz).
  assert (Hint : int_of_digits (zeros ++ digits) = Some (Z.abs n)).
  { unfold digits. rewrite str_of_int_abs. apply int_of_padded_digits. }
  repeat split; try assumption.
  - rewrite Hnum. unfold int_of_str.
    destruct (n <? 0)%Z eqn:Hneg.
    + rewrite (strip_id "-" z (zeros ++ digits) ("-"%char :: zeros ++ u)).
      * simpl. rewrite Hint. simpl. f_equal.
        apply Z.ltb_lt in Hneg. lia.
      * reflexivity.
      * now apply isdigit_not_space.
      * rewrite Elast. simpl. now rewrite app_assoc.
    + assert (Hz0 : forallb isdigit (zeros ++ digits) = true).
      { rewrite forallb_app, Hdig, andb_true_r. unfold zeros.
        generalize (Z.to_nat (zero_pad cfg) - length (str_of_int n))%nat.
        intros k; induction k; simpl; auto. }
      destruct (zeros ++ digits) as [|c rest] eqn:E.
      { apply app_eq_nil in E as [_ E]. now contradiction Hne. }
      simpl in Hz0. apply andb_true_iff in Hz0 as [Hc Hrest].
      rewrite (strip_id c z rest (zeros ++ u)).
      * assert (ch_eqb c "-" = false) as ->.
        { unfold ch_eqb. destruct (Ascii.eqb_spec c "-") as [->|]; auto. }
        assert (ch_eqb c "+" = false) as ->.
        { unfold ch_eqb. destruct (Ascii.eqb_spec c "+") as [->|]; auto. }
        rewrite Hint. f_equal. apply Z.ltb_ge in Hneg. lia.
      * now apply isdigit_not_space.
      * now apply isdigit_not_space.
      * rewrite <- E, Elast. now rewrite app_assoc.
  - rewrite Hnum. unfold zeros. rewrite Hsign.
    destruct (n <? 0)%Z; cbn [length]; rewrite ?length_app, repeat_length;
      lia.
  - intros Hle. unfold numeral, zfill.
    apply Z.leb_le in Hle. now rewrite Hle.
Qed.

End Numerals.

(** -5 and 12345 on three digits. *)
Lemma numeral_is_padded_decimal_witness :
  (0 < zero_pad order_cfg)%Z
  /\ numeral order_cfg (-5) = "-05"
  /\ numeral order_cfg 12345 = "12345"
  /\ int_of_str (numeral order_cfg (-5)) = Some (-5)%Z.
Proof.
  assert (H : (0 < zero_pad order_cfg)%Z) by reflexivity.
  refine (conj H _).
  pose proof (numeral_is_padded_decimal order_cfg (-5) H) as (H1 & _ & _ & _ & H2 & _).
  pose proof (numeral_is_padded_decimal order_cfg 12345 H) as (H3 & _).
  exact (conj H1 (conj H3 H2)).
Defined.

(* ================================================================== *)
(** ** Facts about [replace] and [contains] *)

Lemma startswith_app (p s t : str) :
  startswith p s = true -> startswith p (s ++ t) = true.
Proof.
  revert s. induction p as [|x p IH]; intros [|y s]; simpl; auto.
  - discriminate.
  - intros H. apply andb_true_iff in H as [H1 H2].
    now rewrite H1, IH.
Qed.

Lemma startswith_app_long (p s t : str) :
  length p <= length s -> startswith p (s ++ t) = startswith p s.
Proof.
  revert s. induction p as [|x p IH]; intros [|y s]; simpl; auto;
    try lia.
  intros H. rewrite IH by lia. reflexivity.
Qed.

Lemma startswith_short (p s : str) :
  length s < length p -> startswith p s = false.
Proof.
  revert s. induction p as [|x p IH]; intros [|y s]; simpl; auto;
    try lia.
  intros H. rewrite IH by lia. apply andb_false_r.
Qed.

Lemma contains_here (x s : str) : startswith x s = true -> contains x s = true.
Proof. intros H. destruct s; simpl in *; now rewrite H. Qed.

Lemma contains_app_r (x a b : str) :
  contains x b = true -> contains x (a ++ b) = true.
Proof.
  intros H. induction a as [|c a IH]; simpl; [exact H|].
  rewrite IH. apply orb_true_r.
Qed.

Lemma contains_app_l (x a b : str) :
  contains x a = true -> contains x (a ++ b) = true.
Proof.
  induction a as [|c a IH]; simpl.
  - rewrite orb_false_r. intros H.
    apply contains_here. now apply (startswith_app x [] b).
  - intros H. apply orb_true_iff in H as [H|H].
    + apply (startswith_app x (c :: a) b) in H. simpl in H. now rewrite H.
    + rewrite IH by assumption. apply orb_true_r.
Qed.

(** What [contains] decides. *)
Lemma contains_spec (x s : str) :
  contains x s = true <-> exists a b, s = a ++ x ++ b.
Proof.
  split.
  - induction s as [|c s IH]; simpl.
    + rewrite orb_false_r. destruct x; [|discriminate].
      intros _. now exists [], [].
    + intros H. apply orb_true_iff in H as [H|H].
      * exists []. simpl. clear IH. revert H. generalize (c :: s). clear.
        induction x as [|y x IH]; intros [|z t]; simpl; try discriminate.
        -- intros _. now exists [].
        -- intros _. now exists (z :: t).
        -- intros H. apply andb_true_iff in H as [H1 H2].
           apply Ascii.eqb_eq in H1. subst.
           destruct (IH _ H2) as (b & ->). now exists b.
      * destruct (IH H) as (a & b & ->). now exists (c :: a), b.
  - intros (a & b & ->). apply contains_app_r, contains_app_l, contains_here.
    clear. induction x as [|y x IH]; simpl; [reflexivity|].
    unfold ch_eqb. now rewrite Ascii.eqb_refl.
Qed.

Section ReplaceFacts.
Variables old new : str.

Lemma replace_from_skip (k : nat) (s : str) :
  replace_from old new k s = replace_from old new 0 (skipn k s).
Proof.
  revert k. induction s as [|c s IH]; intros [|k]; simpl; auto.
Qed.

Lemma no_straddle_tail (c : ascii) (a b : str) :
  no_straddle old (c :: a) b -> no_straddle old a b.
Proof.
  intros H a1 a2 E. apply (H (c :: a1) a2). now rewrite E.
Qed.

(** The scan of [a ++ b] is the scan of [a] followed by the scan of [b]
    when no occurrence of [old] lies across the two. *)
Lemma replace_from_app (a b : str) :
  no_straddle old a b ->
  forall k, k <= length a ->
    replace_from old new k (a ++ b)
    = replace_from old new k a ++ replace_from old new 0 b.
Proof.
  induction a as [|c a IH]; intros Hns k Hk.
  - simpl in Hk. now replace k with 0 by lia.
  - specialize (IH (no_straddle_tail _ _ _ Hns)).
    destruct k as [|k]; cbn [app replace_from].
    + destruct (Nat.le_gt_cases (length old) (length (c :: a))) as [Hl|Hl].
      * change (c :: a ++ b) with ((c :: a) ++ b).
        rewrite (startswith_app_long old (c :: a) b Hl).
        destruct (startswith old (c :: a)).
        -- rewrite IH by (simpl in Hl; lia). now rewrite app_assoc.
        -- rewrite IH by lia. reflexivity.
      * change (c :: a ++ b) with ((c :: a) ++ b).
        rewrite (Hns [] (c :: a) eq_refl) by (discriminate || exact Hl).
        rewrite (startswith_short old (c :: a) Hl).
        rewrite IH by lia. reflexivity.
    + apply IH. simpl in Hk. lia.
Qed.

End ReplaceFacts.

(** Discharges [no_straddle] for a three-character [old] and a right part
    whose first characters are known. *)
Ltac no_straddle3 :=
  let a1 := fresh "a1" in
  let a2 := fresh "a2" in
  let E := fresh "E" in
  let Hne := fresh "Hne" in
  let Hlen := fresh "Hlen" in
  intros a1 a2 E Hne Hlen;
  destruct a2 as [|? [|? [|? ?]]];
  [ now contradiction Hne
  | cbn [startswith app]; repeat match goal with
      | |- context [ch_eqb ?x ?y] => is_var y; destruct (ch_eqb x y)
      end; reflexivity
  | cbn [startswith app]; repeat match goal with
      | |- context [ch_eqb ?x ?y] => is_var y; destruct (ch_eqb x y)
      end; reflexivity
  | simpl in Hlen; lia ].

(** A written [{{}n}] passes the replacement of [{n}] untouched, with what
    is before and after it replaced separately. *)
Lemma replace_token_around_escape (a b num : str) :
  replace (a ++ "{{}n}" ++ b) "{n}" num
  = replace a "{n}" num ++ "{{}n}" ++ replace b "{n}" num.
Proof.
  unfold replace. rewrite replace_from_app; [|no_straddle3|lia].
  f_equal.
Qed.

(** Every [{{}] becomes one brace, with what is before and after it
    unescaped separately. *)
Lemma unescape_around_escape (a b : str) :
  unescape (a ++ "{{}" ++ b) = unescape a ++ "{" ++ unescape b.
Proof.
  unfold unescape, replace. rewrite replace_from_app; [|no_straddle3|lia].
  f_equal.
Qed.

(** A [{n}] that is there passes [unescape] untouched. *)
Lemma unescape_around_token (a b : str) :
  unescape (a ++ "{n}" ++ b) = unescape a ++ "{n}" ++ unescape b.
Proof.
  unfold unescape, replace. rewrite replace_from_app; [|no_straddle3|lia].
  f_equal.
Qed.

(** The round trip of the escape: [{{}n}] in the template is [{n}] in the
    replacement handed to the substitution. *)
Lemma escape_round_trip (a b num : str) :
  unescape (replace (a ++ "{{}n}" ++ b) "{n}" num)
  = unescape (replace a "{n}" num) ++ "{n}" ++ unescape (replace b "{n}" num).
Proof.
  rewrite replace_token_around_escape.
  change ("{{}n}" ++ replace b "{n}" num)
    with ("{{}" ++ "n}" ++ replace b "{n}" num).
  rewrite unescape_around_escape. f_equal.
Qed.

(* ================================================================== *)
(** ** Facts about templates and [sub] *)

Lemma marked_nil : ~ marked [].
Proof.
  intros (ta & x & tb & _ & E). destruct ta; discriminate.
Qed.

Lemma marked_cons (t : token) (toks : list token) :
  marked toks -> marked (t :: toks).
Proof.
  intros (ta & x & tb & Hx & ->). now exists (t :: ta), x, tb.
Qed.

Lemma marked_inv (t : token) (r : list token) :
  marked (t :: r) ->
  ((t = TChar "{" \/ t = TEsc "{")
   /\ exists tb, r = TChar "n" :: TChar "}" :: tb)
  \/ marked r.
Proof.
  intros (ta & x & tb & Hx & E). destruct ta as [|t' ta].
  - left. injection E as -> ->. split; [exact Hx|]. now exists tb.
  - right. injection E as -> ->. now exists ta, x, tb.
Qed.

(** A token other than the brace can be passed over. *)
Lemma marked_skip (c : ascii) (r : list token) :
  marked (TChar c :: r) -> ch_eqb c "{" = false -> marked r.
Proof.
  intros H Hc. destruct (marked_inv _ _ H) as [[[E|E] _]|H']; try assumption.
  - injection E as ->. discriminate.
  - discriminate.
Qed.

Lemma isdigit_not_brace (c : ascii) : isdigit c = true -> ch_eqb c "{" = false.
Proof.
  intros H. unfold ch_eqb. destruct (Ascii.eqb_spec c "{") as [->|]; auto.
Qed.

Lemma isoctdigit_not_brace (c : ascii) :
  isoctdigit c = true -> ch_eqb c "{" = false.
Proof.
  intros H. unfold ch_eqb. destruct (Ascii.eqb_spec c "{") as [->|]; auto.
Qed.

Lemma lt_not_brace (c : ascii) : ch_eqb c "<" = true -> ch_eqb c "{" = false.
Proof.
  unfold ch_eqb. intros H. apply Ascii.eqb_eq in H. now subst.
Qed.

(** The tokens of a template in which [{n}] is written. *)
Lemma tokenize_marked (n : nat) :
  forall (a b : str) (toks : list token),
    length a <= n ->
    tokenize (a ++ "{n}" ++ b) = Some toks -> marked toks.
Proof.
  induction n as [|n IH]; intros a b toks Hlen H.
  - destruct a; [|simpl in Hlen; lia]. simpl in H.
    destruct (tokenize b) as [tb|]; [|discriminate].
    injection H as <-. now exists [], (TChar "{"), tb; auto.
  - destruct a as [|c a].
    + apply (IH [] b); [simpl; lia|exact H].
    + remember ("{n}" ++ b) as t eqn:Et.
      cbn [app tokenize] in H. destruct (ch_eqb c "\").
      * destruct a as [|e a].
        -- subst t. simpl in H.
           destruct (tokenize b) as [tb|]; [|discriminate].
           injection H as <-. now exists [], (TEsc "{"), tb; auto.
        -- cbn [app] in H.
           destruct (tokenize (a ++ t)) as [l|] eqn:E; [|discriminate].
           injection H as <-. apply marked_cons. subst t.
           apply (IH a b); [simpl in Hlen; lia|exact E].
      * destruct (tokenize (a ++ t)) as [l|] eqn:E; [|discriminate].
        injection H as <-. apply marked_cons. subst t.
        apply (IH a b); [simpl in Hlen; lia|exact E].
Qed.

Lemma getuntil_marked (r : list token) :
  forall (name : str) (r2 : list token),
    marked r -> getuntil_gt r = Some (name, r2) ->
    marked r2 \/ In "{"%char name.
Proof.
  induction r as [|t r IH]; intros name r2 Hm H; [discriminate|].
  destruct t as [c|c]; [|discriminate]. simpl in H.
  destruct (ch_eqb c ">") eqn:Egt.
  - injection H as <- <-. left. apply (marked_skip c); [exact Hm|].
    unfold ch_eqb in *. apply Ascii.eqb_eq in Egt. now subst.
  - destruct (getuntil_gt r) as [[nm r']|] eqn:E; [|discriminate].
    injection H as <- <-.
    destruct (marked_inv _ _ Hm) as [[[Ec|Ec] _]|Hm'].
    + injection Ec as ->. right. now left.
    + discriminate.
    + destruct (IH _ _ Hm' eq_refl) as [?|?]; [now left|right; now right].
Qed.

Lemma brace_not_identifier (name : str) :
  In "{"%char name -> isidentifier name = false.
Proof.
  destruct name as [|c rest]; [reflexivity|]. intros [->|Hin]; [reflexivity|].
  simpl. apply andb_false_iff. right.
  induction rest as [|d rest IH]; [contradiction|].
  destruct Hin as [->|Hin]; [reflexivity|].
  simpl. rewrite IH by assumption. apply andb_false_r.
Qed.

Lemma brace_not_digits (name : str) :
  In "{"%char name -> forallb isdigit name = false.
Proof.
  induction name as [|d rest IH]; [contradiction|].
  intros [->|Hin]; [reflexivity|].
  simpl. rewrite IH by assumption. apply andb_false_r.
Qed.

Section TemplateFacts.
Variable p : Pattern.

Lemma expand_cons_contains (x : str) (i : item) (items : list item)
    (s : str) (m : MatchObj) :
  contains x (expand items s m) = true ->
  contains x (expand (i :: items) s m) = true.
Proof.
  intros H. destruct i as [text|g]; cbn [expand].
  - now apply contains_app_r.
  - destruct (group s m (Z.of_nat g)) as [[text|]|]; auto.
    now apply contains_app_r.
Qed.

Lemma parse_tokens_char (fuel : nat) (c : ascii) (rest : list token)
    (items : list item) :
  parse_tokens p (S fuel) (TChar c :: rest) = Some items ->
  exists items',
    parse_tokens p fuel rest = Some items' /\ items = Lit [c] :: items'.
Proof.
  cbn [parse_tokens]. destruct (parse_tokens p fuel rest) as [items'|];
    [|discriminate].
  intros [= <-]. now exists items'.
Qed.

(** After the brace: [n] and the closing brace come out as they are. *)
Lemma parse_tokens_tail (fuel : nat) (tb : list token) (items : list item)
    (s : str) (m : MatchObj) :
  parse_tokens p fuel (TChar "n" :: TChar "}" :: tb) = Some items ->
  startswith "n}" (expand items s m) = true.
Proof.
  destruct fuel as [|fuel]; [discriminate|]. intros H.
  apply parse_tokens_char in H as (items1 & H & ->).
  destruct fuel as [|fuel]; [discriminate|].
  apply parse_tokens_char in H as (items2 & H & ->).
  reflexivity.
Qed.

Ltac finish Hp IH fuel :=
  try match type of Hp with
      | context [addgroup ?q ?i] =>
          destruct (addgroup q i); [|discriminate Hp]
      end;
  match type of Hp with
  | context [parse_tokens p fuel ?r] =>
      let Hr := fresh "Hr" in
      destruct (parse_tokens p fuel r) eqn:Hr; [|discriminate Hp];
      injection Hp as <-; apply expand_cons_contains;
      apply (IH r _); [|exact Hr]
  end.

Ltac not_brace :=
  first [ apply isdigit_not_brace; assumption
        | apply isoctdigit_not_brace; assumption
        | apply lt_not_brace; assumption ].

Ltac solve_marked :=
  first [ assumption
        | eapply marked_skip; [eassumption | not_brace]
        | eapply marked_skip;
          [eapply marked_skip; [eassumption | not_brace] | not_brace] ].

Lemma contains_after_brace (x : str) :
  startswith "n}" x = true -> contains "{n}" ("{"%char :: x) = true.
Proof.
  intros H. apply contains_here.
  change (startswith "{n}" ("{"%char :: x))
    with (ch_eqb "{" "{" && startswith "n}" x).
  now rewrite H.
Qed.

Lemma parse_tokens_marked (fuel : nat) :
  forall (toks : list token) (items : list item),
    marked toks -> parse_tokens p fuel toks = Some items ->
    forall s m, contains "{n}" (expand items s m) = true.
Proof.
  induction fuel as [|fuel IH]; intros toks items Hm Hp s m; [discriminate|].
  assert (IH' : forall r its, marked r -> parse_tokens p fuel r = Some its ->
                  contains "{n}" (expand its s m) = true)
    by (intros; eapply IH; eauto).
  clear IH.
  destruct toks as [|t rest]; [now apply marked_nil in Hm|].
  destruct (marked_inv _ _ Hm) as [[Ht (tb & ->)]|Hm'].
  - (* the brace itself *)
    destruct Ht as [->| ->].
    + apply parse_tokens_char in Hp as (items' & Hp & ->).
      apply (parse_tokens_tail _ _ _ s m) in Hp.
      cbn [expand app]. now apply contains_after_brace.
    + cbn in Hp.
      destruct (parse_tokens p fuel (TChar "n" :: TChar "}" :: tb))
        as [items'|] eqn:Hp'; [|discriminate].
      injection Hp as <-.
      apply (parse_tokens_tail _ _ _ s m) in Hp'.
      cbn [expand app]. apply (contains_app_r _ ["\"%char]).
      now apply contains_after_brace.
  - destruct t as [c|c].
    + apply parse_tokens_char in Hp as (items' & Hp & ->).
      apply expand_cons_contains. now apply (IH' rest).
    + cbn [parse_tokens] in Hp.
      destruct (ch_eqb c "g").
      { destruct rest as [|[lt|?] rest1]; try discriminate.
        destruct (ch_eqb lt "<") eqn:Elt; try discriminate.
        assert (Hm1 : marked rest1)
          by (apply (marked_skip lt); [exact Hm'|now apply lt_not_brace]).
        destruct (getuntil_gt rest1) as [[name rest2]|] eqn:Egu;
          try discriminate.
        destruct (getuntil_marked _ _ _ Hm1 Egu) as [Hm2|Hin].
        2:{ rewrite (brace_not_identifier _ Hin), (brace_not_digits _ Hin),
              andb_false_r in Hp. discriminate. }
        destruct (isidentifier name).
        - destruct (groupindex p name); [|discriminate].
          finish Hp IH' fuel. exact Hm2.
        - destruct (negb (length name =? 0) && forallb isdigit name);
            [|discriminate].
          finish Hp IH' fuel. exact Hm2. }
      destruct (ch_eqb c "0").
      { destruct rest as [|[d1|e1] [|[d2|e2] rest2]];
          try destruct (isoctdigit d1) eqn:?;
          try destruct (isoctdigit d2) eqn:?;
          cbn [andb] in Hp; finish Hp IH' fuel; solve_marked. }
      destruct (isdigit c).
      { destruct rest as [|[d1|e1] [|[d2|e2] rest2]];
          try destruct (isdigit d1) eqn:?;
          try destruct (isoctdigit c);
          try destruct (isoctdigit d1) eqn:?;
          try destruct (isoctdigit d2) eqn:?;
          cbn [andb] in Hp;
          try match type of Hp with
              | context [?v <=? 255] =>
                  destruct (v <=? 255); [|discriminate Hp]
              end;
          finish Hp IH' fuel; solve_marked. }
      destruct (simple_escape c); [finish Hp IH' fuel; solve_marked|].
      destruct (isalpha c); [discriminate|].
      finish Hp IH' fuel; solve_marked.
Qed.

(** A [{n}] written in a template that is accepted is in every text the
    template expands to. *)
Lemma parse_template_keeps_token (repl : str) (items : list item) :
  contains "{n}" repl = true ->
  parse_template p repl = Some items ->
  forall s m, contains "{n}" (expand items s m) = true.
Proof.
  intros Hc Hp s m. apply contains_spec in Hc as (a & b & ->).
  unfold parse_template in Hp.
  destruct (tokenize (a ++ "{n}" ++ b)) as [toks|] eqn:Et; [|discriminate].
  apply (tokenize_marked (length a) a b) in Et; [|lia].
  now apply (parse_tokens_marked _ _ _ Et Hp).
Qed.

(** The first turn of the loop of [sub]. *)
Lemma sub_unfold (repl s : str) :
  sub p repl s
  = match parse_template p repl with
    | Some items =>
        Some
          match search p s 0 false with
          | None => s
          | Some m =>
              slice s 0 (m_start m) ++ expand items s m
              ++ sub_loop p items s (2 * length s + 2) (m_end m)
                   (m_end m =? m_start m) (m_end m)
          end
    | None => None
    end.
Proof.
  unfold sub. destruct (parse_template p repl) as [items|]; [|reflexivity].
  replace (2 * length s + 3) with (S (2 * length s + 2)) by lia.
  reflexivity.
Qed.

(** Without a match [sub] returns the string as it is. *)
Lemma sub_no_match (repl s new_s : str) :
  search p s 0 false = None -> sub p repl s = Some new_s -> new_s = s.
Proof.
  intros Hs. rewrite sub_unfold, Hs.
  destruct (parse_template p repl); [|discriminate].
  now intros [= <-].
Qed.

(** With a match the result holds the expansion of the template at the
    first match. *)
Lemma sub_first_match (repl s new_s : str) (m : MatchObj) :
  search p s 0 false = Some m -> sub p repl s = Some new_s ->
  exists items before after,
    parse_template p repl = Some items
    /\ new_s = before ++ expand items s m ++ after.
Proof.
  intros Hs. rewrite sub_unfold, Hs.
  destruct (parse_template p repl) as [items|]; [|discriminate].
  intros [= <-]. now eexists items, _, _.
Qed.

(** A [{n}] in the replacement is in the new name as soon as the pattern
    matches somewhere. *)
Lemma sub_keeps_token (repl s new_s : str) (m : MatchObj) :
  contains "{n}" repl = true ->
  search p s 0 false = Some m -> sub p repl s = Some new_s ->
  contains "{n}" new_s = true.
Proof.
  intros Hc Hs Hsub.
  destruct (sub_first_match _ _ _ _ Hs Hsub) as (items & x & y & Hp & ->).
  apply contains_app_r, contains_app_l.
  now apply parse_template_keeps_token with (repl := repl).
Qed.

(** A name that changes has been matched. *)
Lemma sub_changed_matches (repl s new_s : str) :
  sub p repl s = Some new_s -> new_s <> s ->
  exists m, search p s 0 false = Some m.
Proof.
  intros Hsub Hne. destruct (search p s 0 false) as [m|] eqn:Hs.
  - now exists m.
  - now apply (sub_no_match _ _ _ Hs) in Hsub.
Qed.

End TemplateFacts.

(* ================================================================== *)
(** ** Facts about the engine and the fuel of [sub] *)

Section EngineFacts.
Variable s : str.
Variable Q : nat * caps -> Prop.

Local Abbreviation kont_ok := (kont_ok s Q).

Lemma kont_ok_later (pos pos' : nat) k :
  pos <= pos' -> kont_ok pos k -> kont_ok pos' k.
Proof. intros Hle Hk p c res Hp. apply Hk. lia. Qed.

Lemma star_loop_inv step k (fuel : nat) :
  (forall pos c k' res, pos <= length s -> kont_ok pos k' ->
     step pos c k' = Some res -> Q res) ->
  forall pos c res,
    pos <= length s -> kont_ok pos k ->
    star_loop step k fuel pos c = Some res -> Q res.
Proof.
  intros Hstep. induction fuel as [|fuel IH]; intros pos c res Hpos Hk; simpl.
  - apply Hk. lia.
  - destruct (step pos c _) as [res'|] eqn:E.
    + intros [= <-]. apply (Hstep _ _ _ _ Hpos) in E; [exact E|].
      intros pos' c' res'' Hp'. destruct (pos' <=? pos); [discriminate|].
      apply IH; [lia|]. apply kont_ok_later with (pos := pos); [lia|exact Hk].
    + apply Hk. lia.
Qed.

Lemma run_inv (r : regex) :
  forall pos c k res,
    pos <= length s -> kont_ok pos k ->
    run r s pos c k = Some res -> Q res.
Proof.
  induction r as [|a| |lo hi|r1 IH1 r2 IH2|r1 IH1 r2 IH2|r1 IH1|g r1 IH1];
    intros pos c k res Hpos Hk; cbn [run].
  - apply Hk. lia.
  - destruct (nth_error s pos) as [b|] eqn:E; [|discriminate].
    assert (pos < length s) by (apply nth_error_Some; now rewrite E).
    destruct (ch_eqb a b); [|discriminate]. apply Hk. lia.
  - destruct (nth_error s pos) as [b|] eqn:E; [|discriminate].
    assert (pos < length s) by (apply nth_error_Some; now rewrite E).
    destruct (ch_eqb b _); [discriminate|]. apply Hk. lia.
  - destruct (nth_error s pos) as [b|] eqn:E; [|discriminate].
    assert (pos < length s) by (apply nth_error_Some; now rewrite E).
    destruct (in_range lo hi b); [|discriminate]. apply Hk. lia.
  - apply IH1; [exact Hpos|]. intros pos' c' res' Hp'.
    apply IH2; [lia|]. apply kont_ok_later with (pos := pos); [lia|exact Hk].
  - destruct (run r1 s pos c k) as [res'|] eqn:E.
    + intros [= <-]. now apply (IH1 _ _ _ _ Hpos Hk E).
    + now apply IH2.
  - apply star_loop_inv; auto.
  - apply IH1; [exact Hpos|]. intros pos' c' res' Hp'. apply Hk. lia.
Qed.

End EngineFacts.

(** The patterns of the backtracking engine are well formed. *)
Lemma compile_regex_well_formed (r : regex) : well_formed (compile_regex r).
Proof.
  intros s pos adv m Hpos. cbn [compile_regex match_at].
  destruct (run r s pos _ _) as [[e c]|] eqn:E; [|discriminate].
  intros [= <-]. cbn [m_start m_end].
  refine (run_inv s (fun res => m_start {| m_start := pos; m_end := fst res;
                                            m_spans := snd res |} = pos
                               /\ pos <= fst res <= length s
                               /\ (adv = true -> pos < fst res))
            r pos _ _ (e, c) Hpos _ E).
  intros pos' c' res Hp'. destruct adv; cbn [andb].
  - destruct (pos' =? pos) eqn:Eq; [discriminate|].
    apply Nat.eqb_neq in Eq. intros [= <-]. cbn [fst]. repeat split; lia.
  - intros [= <-]. cbn [fst]. repeat split; try lia; try discriminate.
Qed.

(** The loop of [sub] on a well-formed pattern never uses up its fuel. *)
Section SubFacts.
Variable p : Pattern.
Hypothesis Hwf : well_formed p.

Lemma search_from_bounds (s : str) (fuel : nat) :
  forall pos adv m,
    pos + fuel = length s ->
    search_from p s pos adv fuel = Some m ->
    pos <= m_start m /\ m_start m <= m_end m <= length s
    /\ (adv = true -> pos < m_end m).
Proof.
  induction fuel as [|fuel IH]; intros pos adv m Hlen; cbn [search_from].
  - destruct (match_at p s pos adv) as [m'|] eqn:E; [|discriminate].
    intros [= <-]. apply Hwf in E; [|lia]. destruct E as (-> & ? & ?).
    repeat split; auto; lia.
  - destruct (match_at p s pos adv) as [m'|] eqn:E.
    + intros [= <-]. apply Hwf in E; [|lia]. destruct E as (-> & ? & ?).
      repeat split; auto; lia.
    + intros H. apply IH in H; [|lia]. destruct H as (H1 & H2 & _).
      repeat split; try lia.
Qed.

Lemma search_bounds (s : str) (start : nat) (adv : bool) (m : MatchObj) :
  search p s start adv = Some m ->
  start <= m_start m /\ m_start m <= m_end m <= length s
  /\ (adv = true -> start < m_end m).
Proof.
  unfold search. destruct (start <=? length s) eqn:E; [|discriminate].
  apply Nat.leb_le in E. apply search_from_bounds. lia.
Qed.

(** With fuel for the turns still possible, more fuel changes nothing. *)
Lemma sub_loop_enough (items : list item) (s : str) (fuel : nat) :
  forall fuel' start adv i,
    turns s start adv <= fuel -> turns s start adv <= fuel' ->
    sub_loop p items s fuel start adv i = sub_loop p items s fuel' start adv i.
Proof.
  induction fuel as [|fuel IH]; intros fuel' start adv i H1 H2.
  - unfold turns in H1. destruct adv; lia.
  - destruct fuel' as [|fuel']; [unfold turns in H2; destruct adv; lia|].
    cbn [sub_loop]. destruct (search p s start adv) as [m|] eqn:E;
      [|reflexivity].
    apply search_bounds in E as (Hs & He & Hadv).
    do 2 f_equal. unfold turns in *.
    destruct (m_end m =? m_start m) eqn:Eq.
    + apply Nat.eqb_eq in Eq. apply IH; destruct adv;
        try (specialize (Hadv eq_refl)); lia.
    + apply Nat.eqb_neq in Eq. apply IH; destruct adv; lia.
Qed.

(** The fuel of [sub] is enough: any larger amount gives the same result. *)
Lemma sub_fuel (repl s : str) (items : list item) (fuel : nat) :
  parse_template p repl = Some items ->
  2 * length s + 2 <= fuel ->
  sub p repl s = Some (sub_loop p items s fuel 0 false 0).
Proof.
  intros Hp Hf. unfold sub. rewrite Hp. f_equal.
  apply sub_loop_enough; unfold turns; lia.
Qed.

End SubFacts.

(* ================================================================== *)
(** ** The escape, and files the pattern does not match at their start *)

Lemma unescape_keeps_token (t : str) :
  contains "{n}" t = true -> contains "{n}" (unescape t) = true.
Proof.
  intros H. apply contains_spec in H as (a & b & ->).
  rewrite unescape_around_token. apply contains_spec. now eexists _, _.
Qed.

Section Escapes.
Context {P : Platform}.

(** What [rename_or_skip] does with a name that changes. *)
Lemma rename_or_skip_changed (cfg : BatchRenameConfig)
    (old_file new_file : str) (w : world) :
  new_file <> old_file ->
  rename_or_skip cfg old_file new_file w
  = if dry_run cfg then
      (Ok tt,
       logged
         (logged w
            (Log INFO "Rename (dry run): %s -> %s"
               [Repr old_file; Repr new_file]))
         (Print ("Rename: " ++ old_file ++ " -> " ++ new_file)))
    else
      fs_rename old_file new_file
        (logged w (Log INFO "Rename: %s -> %s" [Repr old_file; Repr new_file])).
Proof.
  intros Hne. unfold rename_or_skip.
  destruct (str_eqb old_file new_file) eqn:E.
  - apply str_eqb_eq in E. now subst.
  - destruct (dry_run cfg); reflexivity.
Qed.

(** In numbering by group, a file the pattern does not match at its start
    keeps the template as it is. *)
Lemma renumber_no_match (cfg : BatchRenameConfig) (matcher : Pattern)
    (idx g : Z) (f : str) (w : world) :
  group_mode cfg = Some g -> pmatch matcher f = None ->
  renumber cfg matcher idx f w = (Ok (replacement cfg), w).
Proof. intros Hg Hm. unfold renumber. now rewrite Hg, Hm. Qed.

(** C6.  A [{{}n}] written in the template is the literal [{n}] in the
    replacement handed to the substitution, whatever the numeral put for
    the [{n}] before and after it, and just so when no numeral is put;
    every [{{}] becomes one brace, in the replacement [renumber] returns
    and before [sub] is called; and the new name of every file whose name
    changes contains [{n}].  (The name of a file the pattern does not
    match does not change, and the template is not used for it.) *)
Theorem escaped_token_is_literal (cfg : BatchRenameConfig)
    (matcher : Pattern) (idx : Z) (f a b : str) (w : world) :
  replacement cfg = a ++ "{{}n}" ++ b ->
  (forall num,
     unescape (replace (replacement cfg) "{n}" num)
     = unescape (replace a "{n}" num) ++ "{n}"
       ++ unescape (replace b "{n}" num))
  /\ unescape (replacement cfg) = unescape a ++ "{n}" ++ unescape b
  /\ (forall x y, unescape (x ++ "{{}" ++ y) = unescape x ++ "{" ++ unescape y)
  /\ (forall repl w1,
        renumber cfg matcher idx f
          (logged w (Log DEBUG "Processing %s" [Repr f])) = (Ok repl, w1) ->
        contains "{n}" (unescape repl) = true
        /\ process_file cfg matcher idx f w
           = (new_file <- matcher_sub matcher (unescape repl) f ;;
              rename_or_skip cfg f new_file) w1
        /\ forall new_file,
             sub matcher (unescape repl) f = Some new_file ->
             new_file <> f ->
             contains "{n}" new_file = true).
Proof.
  intros Hrepl.
  assert (H2 : unescape (replacement cfg) = unescape a ++ "{n}" ++ unescape b).
  { rewrite Hrepl.
    change ("{{}n}" ++ b) with ("{{}" ++ "n}" ++ b).
    rewrite unescape_around_escape. reflexivity. }
  split; [|split; [exact H2|split]].
  - intros num. rewrite Hrepl. apply escape_round_trip.
  - apply unescape_around_escape.
  - intros repl w1 Hn.
    assert (Hc : contains "{n}" (unescape repl) = true).
    { apply contains_spec.
      destruct (renumber_result _ _ _ _ _ _ _ Hn) as [->|(n & ->)].
      - rewrite H2. now eexists _, _.
      - rewrite Hrepl, escape_round_trip. now eexists _, _. }
    split; [exact Hc|split].
    + rewrite process_file_unfold, Hn. reflexivity.
    + intros new_file Hsub Hne.
      destruct (sub_changed_matches _ _ _ _ Hsub Hne) as (m & Hs).
      exact (sub_keeps_token _ _ _ _ _ Hc Hs Hsub).
Qed.


(** C10.  In numbering by group, when the pattern does not match at the
    start of the file name but matches further on, no numeral is put: the
    substitution works with the template as written, a [{n}] in the
    template is in the new name, and when the new name differs from the
    old one the file is reported (dry run) or renamed under it. *)
Theorem late_match_keeps_token (cfg : BatchRenameConfig) (matcher : Pattern)
    (idx g : Z) (f : str) (m : MatchObj) (w : world) :
  group_mode cfg = Some g ->
  pmatch matcher f = None ->
  search matcher f 0 false = Some m ->
  let w1 := logged w (Log DEBUG "Processing %s" [Repr f]) in
  renumber cfg matcher idx f w1 = (Ok (replacement cfg), w1)
  /\ forall new_file,
       sub matcher (unescape (replacement cfg)) f = Some new_file ->
       (contains "{n}" (replacement cfg) = true ->
        contains "{n}" new_file = true)
       /\ (new_file <> f ->
           process_file cfg matcher idx f w
           = if dry_run cfg then
               (Ok tt,
                logged
                  (logged w1
                     (Log INFO "Rename (dry run): %s -> %s"
                        [Repr f; Repr new_file]))
                  (Print ("Rename: " ++ f ++ " -> " ++ new_file)))
             else
               fs_rename f new_file
                 (logged w1
                    (Log INFO "Rename: %s -> %s" [Repr f; Repr new_file]))).
Proof.
  intros Hg Hm Hs w1.
  assert (Hr : renumber cfg matcher idx f w1 = (Ok (replacement cfg), w1))
    by now apply renumber_no_match with (g := g).
  split; [exact Hr|].
  intros new_file Hsub. split.
  - intros Hc. apply unescape_keeps_token in Hc.
    exact (sub_keeps_token _ _ _ _ _ Hc Hs Hsub).
  - intros Hne.
    rewrite (process_file_steps _ _ _ _ _ _ _ _ Hr Hsub).
    now apply rename_or_skip_changed.
Qed.

End Escapes.

(** The template [{n}-{{}n}.txt] on the file of the tests, numbered 17. *)
Lemma escaped_token_is_literal_witness :
  let w := start [] in
  let w0 := logged w (Log DEBUG "Processing %s" [Repr "file_200.txt"]) in
  let w1 :=
    logged w0 (Log DEBUG "Renumber to %d from file processing order" [Int 17]) in
  replacement escape_cfg = "{n}-" ++ "{{}n}" ++ ".txt"
  /\ renumber escape_cfg file_pattern 17 "file_200.txt" w0
     = (Ok "017-{{}n}.txt", w1)
  /\ sub file_pattern (unescape "017-{{}n}.txt") "file_200.txt"
     = Some "017-{n}.txt"
  /\ contains "{n}" "017-{n}.txt" = true.
Proof.
  intros w w0 w1.
  assert (H1 : replacement escape_cfg = "{n}-" ++ "{{}n}" ++ ".txt")
    by reflexivity.
  assert (H2 : renumber escape_cfg file_pattern 17 "file_200.txt" w0
               = (Ok "017-{{}n}.txt", w1)) by reflexivity.
  assert (H3 : sub file_pattern (unescape "017-{{}n}.txt") "file_200.txt"
               = Some "017-{n}.txt") by reflexivity.
  assert (H4 : "017-{n}.txt" <> "file_200.txt") by discriminate.
  refine (conj H1 (conj H2 (conj H3 _))).
  exact (proj2 (proj2 (proj2 (proj2 (proj2
    (@escaped_token_is_literal flat escape_cfg file_pattern 17
       "file_200.txt" "{n}-" ".txt" w H1)))
    "017-{{}n}.txt" w1 H2)) "017-{n}.txt" H3 H4).
Defined.



(** C10, as stated, fails: the pattern [(\d?)\{n\}] does not match [x{n}]
    at its start and matches it from the second character; with the
    template [{n}] and group 1 the substitution gives the old name back, so
    the file is passed over: nothing is printed in a dry run and nothing is
    renamed otherwise. *)
Lemma late_match_can_leave_name_unchanged :
  let dry := group1_cfg "(\d?)\{n\}" "{n}" true in
  let wet := group1_cfg "(\d?)\{n\}" "{n}" false in
  let w := start ["x{n}"] in
  let w' :=
    logged (logged w (Log DEBUG "Processing %s" [Repr "x{n}"]))
      (Log DEBUG "Ignoring %s, no change in name" [Repr "x{n}"]) in
  group_mode dry = Some 1%Z
  /\ contains "{n}" (replacement dry) = true
  /\ pmatch token_pattern "x{n}" = None
  /\ search token_pattern "x{n}" 0 false
     = Some {| m_start := 1; m_end := 4; m_spans := [Some (1, 1)] |}
  /\ sub token_pattern (unescape (replacement dry)) "x{n}" = Some "x{n}"
  /\ process_file dry token_pattern 1 "x{n}" w = (Ok tt, w')
  /\ process_file wet token_pattern 1 "x{n}" w = (Ok tt, w')
  /\ printed w' = []
  /\ renames w' = [].
Proof. repeat split. Qed.

(** A file the pattern of the tests matches from its second character. *)
Lemma late_match_keeps_token_witness :
  let cfg := group1_cfg "file_(\d+)\.txt" "{n}.txt" true in
  let m := {| m_start := 1; m_end := 11; m_spans := [Some (6, 7)] |} in
  let w := start [] in
  let w1 := logged w (Log DEBUG "Processing %s" [Repr "afile_2.txt"]) in
  group_mode cfg = Some 1%Z
  /\ pmatch file_pattern "afile_2.txt" = None
  /\ search file_pattern "afile_2.txt" 0 false = Some m
  /\ sub file_pattern (unescape (replacement cfg)) "afile_2.txt"
     = Some "a{n}.txt"
  /\ contains "{n}" "a{n}.txt" = true
  /\ process_file cfg file_pattern 1 "afile_2.txt" w
     = (Ok tt,
        logged
          (logged w1
             (Log INFO "Rename (dry run): %s -> %s"
                [Repr "afile_2.txt"; Repr "a{n}.txt"]))
          (Print "Rename: afile_2.txt -> a{n}.txt")).
Proof.
  intros cfg m w w1.
  assert (H1 : group_mode cfg = Some 1%Z) by reflexivity.
  assert (H2 : pmatch file_pattern "afile_2.txt" = None) by reflexivity.
  assert (H3 : search file_pattern "afile_2.txt" 0 false = Some m)
    by reflexivity.
  assert (H4 : sub file_pattern (unescape (replacement cfg)) "afile_2.txt"
               = Some "a{n}.txt") by reflexivity.
  assert (H5 : contains "{n}" (replacement cfg) = true) by reflexivity.
  assert (H6 : "a{n}.txt" <> "afile_2.txt") by discriminate.
  refine (conj H1 (conj H2 (conj H3 (conj H4 _)))).
  pose proof (@late_match_keeps_token flat cfg file_pattern 1 1
                "afile_2.txt" m w H1 H2 H3) as (_ & Hnew).
  destruct (Hnew "a{n}.txt" H4) as (Hc & Hp).
  exact (conj (Hc H5) (Hp H6)).
Defined.

(** C6, as stated, fails for a file the pattern does not match: with the
    template [{n}-{{}n}.txt], in which [{{}n}] is written, the name
    computed for [notes.md] is [notes.md] itself, in which there is no
    [{n}]; the template is not used and the file is passed over. *)
Lemma escaped_token_needs_a_match :
  let w := start [] in
  let w1 :=
    logged (logged w (Log DEBUG "Processing %s" [Repr "notes.md"]))
      (Log DEBUG "Renumber to %d from file processing order" [Int 17]) in
  contains "{{}n}" (replacement escape_cfg) = true
  /\ renumber escape_cfg file_pattern 17 "notes.md"
       (logged w (Log DEBUG "Processing %s" [Repr "notes.md"]))
     = (Ok "017-{{}n}.txt", w1)
  /\ unescape "017-{{}n}.txt" = "017-{n}.txt"
  /\ search file_pattern "notes.md" 0 false = None
  /\ sub file_pattern "017-{n}.txt" "notes.md" = Some "notes.md"
  /\ contains "{n}" "notes.md" = false
  /\ process_file escape_cfg file_pattern 17 "notes.md" w
     = (Ok tt,
        logged w1 (Log DEBUG "Ignoring %s, no change in name" [Repr "notes.md"])).
Proof. repeat split. Qed.

(* ================================================================== *)
(** ** Whole runs *)

Section WholeRuns.
Context {P : Platform}.

(** A relation between worlds that every turn of the body keeps is kept
    by the loop. *)
Lemma for_enumerate_keeps (R : world -> world -> Prop)
    (body : Z -> str -> M unit) :
  (forall w, R w w) ->
  (forall w1 w2 w3, R w1 w2 -> R w2 w3 -> R w1 w3) ->
  (forall idx f w r w', body idx f w = (r, w') -> R w w') ->
  forall fls idx w r w',
    for_enumerate body idx fls w = (r, w') -> R w w'.
Proof.
  intros Hrefl Htrans Hbody fls.
  induction fls as [|f rest IH]; intros idx w r w'; simpl.
  - unfold ret. intros [= <- <-]. apply Hrefl.
  - unfold bind. destruct (body idx f w) as [[[]|e] w1] eqn:E.
    + intros H. apply Htrans with (w2 := w1); [now apply Hbody in E|].
      now apply IH in H.
    + intros [= <- <-]. now apply Hbody in E.
Qed.

Lemma matcher_sub_world (matcher : Pattern) (repl f : str) (w w' : world)
    (r : result str) :
  matcher_sub matcher repl f w = (r, w') -> w' = w.
Proof.
  unfold matcher_sub, ret, raise. destruct (sub matcher repl f);
    now intros [= <- <-].
Qed.

Lemma rename_or_skip_dry (cfg : BatchRenameConfig) (f new_file : str)
    (w w' : world) (r : result unit) :
  dry_run cfg = true ->
  rename_or_skip cfg f new_file w = (r, w') ->
  r = Ok tt /\ untouched w w'.
Proof.
  intros Hdry. unfold rename_or_skip. rewrite Hdry.
  destruct (str_eqb f new_file); unfold bind, emit; intros [= <- <-];
    unfold untouched; now rewrite ?renames_logged, ?app_nil_r.
Qed.

Lemma process_file_dry (cfg : BatchRenameConfig) (matcher : Pattern)
    (idx : Z) (f : str) (w w' : world) (r : result unit) :
  dry_run cfg = true ->
  process_file cfg matcher idx f w = (r, w') -> untouched w w'.
Proof.
  intros Hdry. rewrite process_file_unfold.
  destruct (renumber cfg matcher idx f _) as [[repl|e] w1] eqn:En;
    destruct (renumber_frame _ _ _ _ _ _ _ En) as (Hfs & _ & Hre);
    rewrite renames_log in Hre; simpl in Hfs.
  - unfold bind.
    destruct (matcher_sub matcher (unescape repl) f w1) as [[new_file|e] w2]
      eqn:Es; apply matcher_sub_world in Es; subst w2.
    + intros H. apply (rename_or_skip_dry _ _ _ _ _ _ Hdry) in H as (_ & H1 & H2).
      split; congruence.
    + intros [= <- <-]. now split.
  - intros [= <- <-]. now split.
Qed.

Lemma batch_rename_dry (cfg : BatchRenameConfig) (w w' : world)
    (r : result unit) :
  dry_run cfg = true ->
  batch_rename cfg w = (r, w') ->
  w_fs w' = w_fs w /\ renames w' = renames w.
Proof.
  intros Hdry. unfold batch_rename, bind, lift.
  destruct (re_compile (pattern cfg) (regex_flags cfg)) as [matcher|e].
  - apply (for_enumerate_keeps untouched).
    + now split.
    + intros w1 w2 w3 [H1 H2] [H3 H4]. split; congruence.
    + intros idx f w0 r0 w0'. now apply process_file_dry.
  - intros [= <- <-]. now split.
Qed.

Lemma append_events_nil (w : world) : append_events w [] = w.
Proof. destruct w. unfold append_events. simpl. now rewrite app_nil_r. Qed.

Lemma append_events_app (w : world) (e1 e2 : list event) :
  append_events (append_events w e1) e2 = append_events w (e1 ++ e2).
Proof. unfold append_events. simpl. now rewrite app_assoc. Qed.

Lemma logged_append (w : world) (e : event) :
  logged w e = append_events w [e].
Proof. reflexivity. Qed.

Lemma set_dry_run_same (cfg : BatchRenameConfig) :
  set_dry_run cfg (dry_run cfg) = cfg.
Proof. now destruct cfg. Qed.

(** [renumber] does not look at the world: it returns the same result and
    logs the same [DEBUG] records from any world, in a dry run or not. *)
Lemma renumber_pure (cfg : BatchRenameConfig) (matcher : Pattern) (idx : Z)
    (f : str) :
  exists r evs,
    debug_only evs
    /\ forall b w,
         renumber (set_dry_run cfg b) matcher idx f w = (r, append_events w evs).
Proof.
  assert (Hmode : forall b, group_mode (set_dry_run cfg b) = group_mode cfg)
    by reflexivity.
  destruct (group_mode cfg) as [g|] eqn:Hg.
  - destruct (pmatch matcher f) as [m|] eqn:Hm.
    + destruct (group f m g) as [text|] eqn:Hgr.
      * destruct (py_int text) as [n|e] eqn:Hi.
        -- eexists _, [_]. split.
           ++ intros e [<-|[]]. now eexists _, _.
           ++ intros b w. unfold renumber. rewrite Hmode, Hm, Hgr.
              unfold bind, lift. rewrite Hi. unfold numeral.
              cbn [set_dry_run renumber_offset replacement zero_pad].
              reflexivity.
        -- exists (Raise e), []. split; [intros ? []|].
           intros b w. rewrite append_events_nil. unfold renumber.
           rewrite Hmode, Hm, Hgr. unfold bind, lift. now rewrite Hi.
      * exists (Raise IndexError), []. split; [intros ? []|].
        intros b w. rewrite append_events_nil. unfold renumber.
        now rewrite Hmode, Hm, Hgr.
    + exists (Ok (replacement cfg)), []. split; [intros ? []|].
      intros b w. rewrite append_events_nil. unfold renumber.
      now rewrite Hmode, Hm.
  - eexists _, [_]. split.
    + intros e [<-|[]]. now eexists _, _.
    + intros b w. unfold renumber. rewrite Hmode. unfold numeral.
      cbn [set_dry_run renumber_offset replacement zero_pad]. reflexivity.
Qed.

Lemma debug_only_cons (fmt : str) (args : list arg) (evs : list event) :
  debug_only evs -> debug_only (Log DEBUG fmt args :: evs).
Proof. intros H e [<-|Hin]; [now eexists _, _|now apply H]. Qed.

Lemma debug_only_app (e1 e2 : list event) :
  debug_only e1 -> debug_only e2 -> debug_only (e1 ++ e2).
Proof.
  intros H1 H2 e Hin. apply in_app_or in Hin as [Hin|Hin]; auto.
Qed.

(** The body of the loop does one of three things, the same from any
    world and in a dry run or not: it raises, having logged; it passes the
    file over, having logged; or it logs and finds a new name, which a dry
    run reports and a real run hands to [rename]. *)
Lemma process_file_cases (cfg : BatchRenameConfig) (matcher : Pattern)
    (idx : Z) (f : str) :
  (exists e evs,
     debug_only evs
     /\ forall b w,
          process_file (set_dry_run cfg b) matcher idx f w
          = (Raise e, append_events w evs))
  \/ (exists evs,
        debug_only evs
        /\ forall b w,
             process_file (set_dry_run cfg b) matcher idx f w
             = (Ok tt, append_events w evs))
  \/ (exists evs new_file,
        debug_only evs /\ new_file <> f
        /\ (forall w,
              process_file (set_dry_run cfg true) matcher idx f w
              = (Ok tt,
                 append_events w
                   (evs ++ [Log INFO "Rename (dry run): %s -> %s"
                              [Repr f; Repr new_file];
                            Print (preview_line (f, new_file))])))
        /\ (forall w,
              process_file (set_dry_run cfg false) matcher idx f w
              = fs_rename f new_file
                  (append_events w
                     (evs ++ [Log INFO "Rename: %s -> %s"
                                [Repr f; Repr new_file]])))).
Proof.
  destruct (renumber_pure cfg matcher idx f) as (r & evs & Hdebug & Hren).
  set (evs1 := Log DEBUG "Processing %s" [Repr f] :: evs).
  assert (Hd1 : debug_only evs1) by now apply debug_only_cons.
  assert (Hren1 : forall b w,
            renumber (set_dry_run cfg b) matcher idx f
              (logged w (Log DEBUG "Processing %s" [Repr f]))
            = (r, append_events w evs1)).
  { intros b w. rewrite Hren, logged_append, append_events_app.
    reflexivity. }
  destruct r as [repl|e].
  - destruct (sub matcher (unescape repl) f) as [new_file|] eqn:Hsub.
    + destruct (str_eqb f new_file) eqn:Heq.
      * right; left.
        exists (evs1 ++ [Log DEBUG "Ignoring %s, no change in name" [Repr f]]).
        split.
        { apply debug_only_app; [exact Hd1|]. intros e [<-|[]].
          now eexists _, _. }
        intros b w. rewrite (process_file_steps _ _ _ _ _ _ _ _ (Hren1 b w) Hsub).
        unfold rename_or_skip. rewrite Heq. unfold emit.
        now rewrite logged_append, append_events_app.
      * right; right. exists evs1, new_file. split; [exact Hd1|].
        split; [intros ->; now rewrite str_eqb_refl in Heq|]. split.
        -- intros w.
           rewrite (process_file_steps _ _ _ _ _ _ _ _ (Hren1 true w) Hsub).
           unfold rename_or_skip. rewrite Heq. cbn [set_dry_run dry_run].
           unfold bind, emit.
           now rewrite !logged_append, !append_events_app.
        -- intros w.
           rewrite (process_file_steps _ _ _ _ _ _ _ _ (Hren1 false w) Hsub).
           unfold rename_or_skip. rewrite Heq. cbn [set_dry_run dry_run].
           unfold bind, emit.
           now rewrite !logged_append, !append_events_app.
    + left. exists ReError, evs1. split; [exact Hd1|].
      intros b w. rewrite process_file_unfold, Hren1.
      unfold bind, matcher_sub. now rewrite Hsub.
  - left. exists e, evs1. split; [exact Hd1|].
    intros b w. now rewrite process_file_unfold, Hren1.
Qed.

Lemma debug_only_silent (evs : list event) :
  debug_only evs ->
  flat_map (fun e => match e with Print l => [l] | _ => [] end) evs = []
  /\ flat_map (fun e => match e with Rename a b => [(a, b)] | _ => [] end) evs
     = []
  /\ flat_map
       (fun e =>
          match e with
          | Log INFO _ [Repr a; Repr b] => [(a, b)]
          | _ => []
          end) evs = [].
Proof.
  induction evs as [|e evs IH]; intros H; [now repeat split|].
  destruct (H e (or_introl eq_refl)) as (fmt & args & ->).
  destruct IH as (H1 & H2 & H3).
  { intros e' Hin. apply H. now right. }
  simpl. now rewrite H1, H2, H3.
Qed.

(** What the events [evs] add to the lines printed, the calls of [rename]
    and the pairs announced, when all but the last [k] are [DEBUG]
    records. *)
Lemma observe_append (w : world) (evs more : list event) :
  debug_only evs ->
  printed (append_events w (evs ++ more))
  = printed w
    ++ flat_map (fun e => match e with Print l => [l] | _ => [] end) more
  /\ renames (append_events w (evs ++ more))
     = renames w
       ++ flat_map (fun e => match e with Rename a b => [(a, b)] | _ => [] end)
            more
  /\ announced (append_events w (evs ++ more))
     = announced w
       ++ flat_map
            (fun e =>
               match e with
               | Log INFO _ [Repr a; Repr b] => [(a, b)]
               | _ => []
               end) more
  /\ w_fs (append_events w (evs ++ more)) = w_fs w.
Proof.
  intros H. destruct (debug_only_silent evs H) as (H1 & H2 & H3).
  unfold printed, renames, announced, append_events. cbn [w_trace w_fs].
  rewrite !flat_map_app, H1, H2, H3. now repeat split.
Qed.

Lemma observe_debug (w : world) (evs : list event) :
  debug_only evs ->
  printed (append_events w evs) = printed w
  /\ renames (append_events w evs) = renames w
  /\ announced (append_events w evs) = announced w.
Proof.
  intros H. destruct (observe_append w evs [] H) as (H1 & H2 & H3 & _).
  rewrite app_nil_r in H1, H2, H3. simpl in H1, H2, H3.
  rewrite app_nil_r in H1, H2, H3. now repeat split.
Qed.

Lemma observe_renamed (w : world) (fs' : FS) (a b : str) :
  let w3 := {| w_fs := fs'; w_trace := w_trace (logged w (Rename a b)) |} in
  printed w3 = printed w
  /\ renames w3 = renames w ++ [(a, b)]
  /\ announced w3 = announced w.
Proof.
  unfold printed, renames, announced, logged. cbn [w_trace].
  rewrite !flat_map_app. simpl. now rewrite !app_nil_r.
Qed.

Lemma announced_logged_rename (w : world) (a b : str) :
  announced (logged w (Rename a b)) = announced w.
Proof.
  unfold announced, logged. cbn [w_trace].
  rewrite flat_map_app. simpl. now rewrite app_nil_r.
Qed.

(** The loop announces at [INFO] the pairs it then prints (dry run) or
    hands to [rename] (real run), in order; they are pairs of different
    names whose first is a file of the sequence. *)
Lemma loop_announces (cfg : BatchRenameConfig) (matcher : Pattern) (b : bool) :
  forall fls idx w r w',
    for_enumerate (process_file (set_dry_run cfg b) matcher) idx fls w
    = (r, w') ->
    exists A,
      announced w' = announced w ++ A
      /\ (if b
          then printed w' = printed w ++ map preview_line A
               /\ renames w' = renames w /\ w_fs w' = w_fs w
          else renames w' = renames w ++ A /\ printed w' = printed w)
      /\ Forall (fun p => fst p <> snd p /\ In (fst p) fls) A.
Proof.
  induction fls as [|f rest IH]; intros idx w r w'.
  - simpl. unfold ret. intros [= <- <-]. exists []. rewrite !app_nil_r.
    destruct b; repeat split; constructor.
  - cbn [for_enumerate]. unfold bind.
    assert (Hrest : forall A,
              Forall (fun p : str * str => fst p <> snd p /\ In (fst p) rest) A ->
              Forall (fun p => fst p <> snd p /\ In (fst p) (f :: rest)) A).
    { intros A HA. eapply Forall_impl; [|exact HA].
      intros p [H1 H2]. split; [exact H1|now right]. }
    destruct (process_file_cases cfg matcher idx f)
      as [(e & evs & Hd & Hp)|[(evs & Hd & Hp)|(evs & new_file & Hd & Hne & Hdry & Hwet)]].
    + rewrite Hp. intros [= <- <-]. exists [].
      destruct (observe_append w evs [] Hd) as (H1 & H2 & H3 & H4).
      rewrite app_nil_r in *. simpl in *. rewrite !app_nil_r in *.
      destruct b; repeat split; auto.
    + rewrite Hp. intros H. apply IH in H as (A & HA & Hb & HF).
      destruct (observe_append w evs [] Hd) as (H1 & H2 & H3 & H4).
      rewrite app_nil_r in *. simpl in *. rewrite !app_nil_r in *.
      exists A. rewrite H3 in HA. split; [exact HA|]. split; [|now apply Hrest].
      destruct b.
      * destruct Hb as (Hb1 & Hb2 & Hb3). repeat split; congruence.
      * destruct Hb as (Hb1 & Hb2). split; congruence.
    + destruct b.
      * rewrite Hdry. intros H. apply IH in H as (A & HA & (Hb1 & Hb2 & Hb3) & HF).
        destruct (observe_append w evs
                    [Log INFO "Rename (dry run): %s -> %s"
                       [Repr f; Repr new_file];
                     Print (preview_line (f, new_file))] Hd)
          as (H1 & H2 & H3 & H4).
        simpl in H1, H2, H3. rewrite app_nil_r in H2.
        exists ((f, new_file) :: A). split; [|split; [repeat split|]].
        -- rewrite HA, H3, <- app_assoc. reflexivity.
        -- rewrite Hb1, H1, <- app_assoc. reflexivity.
        -- congruence.
        -- congruence.
        -- constructor; [split; [simpl; congruence|now left]|now apply Hrest].
      * rewrite Hwet. unfold fs_rename.
        destruct (observe_append w evs
                    [Log INFO "Rename: %s -> %s" [Repr f; Repr new_file]] Hd)
          as (H1 & H2 & H3 & H4).
        simpl in H1, H2, H3. rewrite app_nil_r in H1, H2.
        set (w2 := append_events w
                     (evs ++ [Log INFO "Rename: %s -> %s"
                                [Repr f; Repr new_file]])) in *.
        destruct (path_rename f new_file (w_fs w2)) as [fs'|e].
        -- intros H. apply IH in H as (A & HA & (Hb1 & Hb2) & HF).
           destruct (observe_renamed w2 fs' f new_file) as (O1 & O2 & O3).
           exists ((f, new_file) :: A). split; [|split; [split|]].
           ++ rewrite HA, O3, H3, <- app_assoc. reflexivity.
           ++ rewrite Hb1, O2, H2, <- !app_assoc. reflexivity.
           ++ rewrite Hb2, O1. exact H1.
           ++ constructor; [split; [simpl; congruence|now left]|now apply Hrest].
        -- intros [= <- <-]. exists [(f, new_file)]. split; [|split; [split|]].
           ++ rewrite announced_logged_rename. exact H3.
           ++ rewrite renames_logged, H2. reflexivity.
           ++ rewrite printed_logged, app_nil_r. exact H1.
           ++ constructor; [split; [simpl; congruence|now left]|constructor].
Qed.

(** The real run and the dry run of one loop, from any two worlds: the
    pairs handed to [rename] are the first of the pairs the dry run
    prints, and all of them when the real run ends normally. *)
Lemma loop_dry_run_agrees (cfg : BatchRenameConfig) (matcher : Pattern) :
  forall fls idx wa wd,
    let real :=
      for_enumerate (process_file (set_dry_run cfg false) matcher) idx fls wa in
    let dry :=
      for_enumerate (process_file (set_dry_run cfg true) matcher) idx fls wd in
    exists A rest,
      renames (snd real) = renames wa ++ A
      /\ printed (snd dry) = printed wd ++ map preview_line (A ++ rest)
      /\ (fst real = Ok tt -> rest = [] /\ fst dry = Ok tt).
Proof.
  induction fls as [|f fls IH]; intros idx wa wd; cbn zeta.
  - exists [], []. simpl. now rewrite !app_nil_r.
  - cbn [for_enumerate]. unfold bind.
    destruct (process_file_cases cfg matcher idx f)
      as [(e & evs & Hd & Hp)|[(evs & Hd & Hp)|(evs & new_file & Hd & Hne & Hdry & Hwet)]].
    + rewrite !Hp. exists [], []. cbn [fst snd].
      destruct (observe_debug wa evs Hd) as (_ & H2 & _).
      destruct (observe_debug wd evs Hd) as (H1 & _).
      rewrite H1, H2, !app_nil_r.
      split; [reflexivity|split; [reflexivity|discriminate]].
    + rewrite !Hp.
      destruct (IH (idx + 1)%Z (append_events wa evs) (append_events wd evs))
        as (A & rest & HA & HD & Hok).
      destruct (observe_debug wa evs Hd) as (_ & H2 & _).
      destruct (observe_debug wd evs Hd) as (H1 & _).
      exists A, rest. rewrite HA, HD, H1, H2.
      split; [reflexivity|split; [reflexivity|exact Hok]].
    + rewrite Hdry, Hwet. unfold fs_rename.
      destruct (observe_append wa evs
                  [Log INFO "Rename: %s -> %s" [Repr f; Repr new_file]] Hd)
        as (_ & H2 & _).
      destruct (observe_append wd evs
                  [Log INFO "Rename (dry run): %s -> %s"
                     [Repr f; Repr new_file];
                   Print (preview_line (f, new_file))] Hd) as (H1 & _).
      simpl in H1, H2. rewrite app_nil_r in H2.
      set (wa2 := append_events wa
                    (evs ++ [Log INFO "Rename: %s -> %s"
                               [Repr f; Repr new_file]])) in *.
      set (wd2 := append_events wd _) in *.
      destruct (path_rename f new_file (w_fs wa2)) as [fs'|e].
      * destruct (IH (idx + 1)%Z
                    {| w_fs := fs';
                       w_trace := w_trace (logged wa2 (Rename f new_file)) |}
                    wd2)
          as (A & rest & HA & HD & Hok).
        destruct (observe_renamed wa2 fs' f new_file) as (_ & O2 & _).
        exists ((f, new_file) :: A), rest. split; [|split].
        -- rewrite HA, O2, H2, <- !app_assoc. reflexivity.
        -- rewrite HD, H1, <- !app_assoc. reflexivity.
        -- exact Hok.
      * destruct (loop_announces cfg matcher true fls (idx + 1)%Z wd2
                    _ _ (surjective_pairing _))
          as (D & _ & (HD & _) & _).
        exists [(f, new_file)], D. cbn [fst snd]. split; [|split].
        -- rewrite renames_logged, H2. reflexivity.
        -- rewrite HD, H1, <- !app_assoc. reflexivity.
        -- discriminate.
Qed.

Lemma init_from_args_dry_run (args : BatchRenameArgs) (stdin : list str)
    (fs : FS) (cfg : BatchRenameConfig) :
  init_from_args args stdin fs = Ok cfg -> dry_run cfg = arg_dry_run args.
Proof.
  unfold init_from_args.
  destruct (init_renumbering (arg_renumber_group args)) as [[g o]|e];
    cbn [result_bind]; [|discriminate].
  now intros [= <-].
Qed.

(** X1.  With [--dry-run], [main] renames nothing and leaves the file
    system as it is, whatever the other arguments and however the run
    ends. *)
Theorem main_dry_run_touches_nothing (args : BatchRenameArgs)
    (stdin : list str) (w w' : world) (r : result unit) :
  arg_dry_run args = true ->
  main args stdin w = (r, w') ->
  w_fs w' = w_fs w /\ renames w' = renames w.
Proof.
  intros Hdry. unfold main. destruct (arg_test args).
  - now intros [= <- <-].
  - unfold bind, lift.
    destruct (init_from_args args stdin (w_fs w)) as [cfg|e] eqn:Hcfg.
    + apply batch_rename_dry.
      now rewrite (init_from_args_dry_run _ _ _ _ Hcfg).
    + now intros [= <- <-].
Qed.

(** X2.  The pairs a run announces in its [INFO] records are, in order,
    the pairs it prints (dry run) or hands to [rename] (real run), also
    when the run ends in an exception; each is a file of the sequence with
    a new name different from the old one. *)
Theorem run_announces_its_renames (cfg : BatchRenameConfig) (w : world) :
  let w' := snd (batch_rename cfg w) in
  exists A,
    announced w' = announced w ++ A
    /\ (if dry_run cfg
        then printed w' = printed w ++ map preview_line A
             /\ renames w' = renames w
        else renames w' = renames w ++ A /\ printed w' = printed w)
    /\ Forall (fun p => fst p <> snd p /\ In (fst p) (files cfg)) A.
Proof.
  cbn zeta. unfold batch_rename, bind, lift.
  destruct (re_compile (pattern cfg) (regex_flags cfg)) as [matcher|e].
  - destruct (loop_announces cfg matcher (dry_run cfg) (files cfg)
                (renumber_from cfg) w _ _ (surjective_pairing _))
      as (A & HA & Hb & HF).
    rewrite set_dry_run_same in HA, Hb. exists A.
    split; [exact HA|split; [|exact HF]].
    destruct (dry_run cfg); [|exact Hb]. now destruct Hb as (? & ? & _).
  - exists []. cbn [snd]. rewrite !app_nil_r.
    destruct (dry_run cfg); repeat split; constructor.
Qed.

(** X3.  For the same sequence of files, the pairs a real run hands to
    [rename] are the first of the pairs a dry run prints, in the same
    order, whatever the two file systems hold; when the real run ends
    normally they are all of them and the dry run ends normally too. *)
Theorem dry_run_previews_real_run (cfg : BatchRenameConfig) (wa wd : world) :
  let real := batch_rename (set_dry_run cfg false) wa in
  let dry := batch_rename (set_dry_run cfg true) wd in
  exists A rest,
    renames (snd real) = renames wa ++ A
    /\ printed (snd dry) = printed wd ++ map preview_line (A ++ rest)
    /\ (fst real = Ok tt -> rest = [] /\ fst dry = Ok tt).
Proof.
  cbn zeta. unfold batch_rename, bind, lift.
  cbn [set_dry_run pattern regex_flags renumber_from files].
  destruct (re_compile (pattern cfg) (regex_flags cfg)) as [matcher|e].
  - apply loop_dry_run_agrees.
  - exists [], []. cbn [fst snd]. rewrite !app_nil_r.
    split; [reflexivity|split; [reflexivity|discriminate]].
Qed.

End WholeRuns.

(** The test [test_simple_rename], run through [main] with [--dry-run]. *)
Lemma main_dry_run_touches_nothing_witness :
  let args :=
    with_dry_run
      (parsed "file_(\d+)\.txt" "\1-file.txt" ["file_200.txt"]) true in
  let run := main args [] (start ["file_200.txt"]) in
  arg_dry_run args = true
  /\ printed (snd run) = ["Rename: file_200.txt -> 200-file.txt"]
  /\ w_fs (snd run) = ["file_200.txt"]
  /\ renames (snd run) = [].
Proof.
  intros args run.
  assert (H1 : arg_dry_run args = true) by reflexivity.
  assert (H2 : printed (snd run) = ["Rename: file_200.txt -> 200-file.txt"])
    by reflexivity.
  refine (conj H1 (conj H2 _)).
  exact (@main_dry_run_touches_nothing flat args [] (start ["file_200.txt"])
           (snd run) (fst run) H1 (surjective_pairing run)).
Defined.

(* ================================================================== *)
(** ** The loop, file by file *)

Section LoopFacts.
Context {P : Platform}.

Lemma search_none_pmatch (matcher : Pattern) (f : str) :
  search matcher f 0 false = None -> pmatch matcher f = None.
Proof.
  unfold search, pmatch. simpl.
  destruct (length f - 0) as [|n]; simpl;
    now destruct (match_at matcher f 0 false).
Qed.

(** X4.  A file in which the pattern matches nowhere is passed over:
    nothing is printed for it and it is not renamed, in a dry run or not;
    the only exception its turn of the loop can end in is that of a
    template [re] refuses (the number of the file being one that [str]
    converts). *)
Theorem unmatched_file_is_passed_over (cfg : BatchRenameConfig)
    (matcher : Pattern) (idx : Z) (f : str) (w : world) :
  length (str_of_int idx) <= max_str_digits ->
  search matcher f 0 false = None ->
  exists r w',
    process_file cfg matcher idx f w = (r, w')
    /\ (r = Ok tt \/ r = Raise ReError)
    /\ printed w' = printed w /\ renames w' = renames w /\ w_fs w' = w_fs w.
Proof.
  intros _ Hs. rewrite process_file_unfold.
  assert (Hren : exists repl w1,
            renumber cfg matcher idx f
              (logged w (Log DEBUG "Processing %s" [Repr f])) = (Ok repl, w1)).
  { destruct (group_mode cfg) as [g|] eqn:Hg.
    - eexists _, _. apply (renumber_no_match _ _ _ g); [exact Hg|].
      now apply search_none_pmatch.
    - eexists _, _. now apply renumber_by_order. }
  destruct Hren as (repl & w1 & Hren). rewrite Hren.
  destruct (renumber_frame _ _ _ _ _ _ _ Hren) as (Hfs & Hpr & Hre).
  rewrite printed_log in Hpr. rewrite renames_log in Hre. simpl in Hfs.
  unfold bind, matcher_sub. rewrite sub_unfold, Hs.
  destruct (parse_template matcher (unescape repl)).
  - unfold ret, rename_or_skip. rewrite str_eqb_refl. unfold emit.
    eexists _, _. split; [reflexivity|]. split; [now left|].
    now rewrite printed_log, renames_log.
  - unfold raise. eexists _, _. split; [reflexivity|]. split; [now right|].
    now repeat split.
Qed.

Lemma process_file_raise_fs (cfg : BatchRenameConfig) (matcher : Pattern)
    (idx : Z) (f : str) (w w2 : world) (e : exn) :
  process_file cfg matcher idx f w = (Raise e, w2) -> w_fs w2 = w_fs w.
Proof.
  rewrite <- (set_dry_run_same cfg).
  destruct (process_file_cases cfg matcher idx f)
    as [(e' & evs & Hd & Hp)|[(evs & Hd & Hp)|(evs & new_file & Hd & Hne & Hdry & Hwet)]].
  - rewrite Hp. now intros [= _ <-].
  - rewrite Hp. discriminate.
  - destruct (dry_run cfg).
    + rewrite Hdry. discriminate.
    + rewrite Hwet. unfold fs_rename.
      destruct (path_rename f new_file _); [discriminate|].
      now intros [= _ <-].
Qed.

(** X5.  The loop ends at the first file whose turn raises: the files after
    it are not looked at, the exception is that of the turn, and the file
    system is as the files before it left it. *)
Theorem first_exception_ends_loop (cfg : BatchRenameConfig)
    (matcher : Pattern) (idx : Z) (before after : list str) (f : str)
    (w w1 w2 : world) (e : exn) :
  for_enumerate (process_file cfg matcher) idx before w = (Ok tt, w1) ->
  process_file cfg matcher (idx + Z.of_nat (length before)) f w1
  = (Raise e, w2) ->
  for_enumerate (process_file cfg matcher) idx (before ++ f :: after) w
  = (Raise e, w2)
  /\ w_fs w2 = w_fs w1
  /\ (forall p, In p (renames w2) ->
        In p (renames w) \/ (fst p <> snd p /\ In (fst p) (before ++ [f]))).
Proof.
  intros Hb Hf.
  assert (Hrun : forall rest,
            for_enumerate (process_file cfg matcher) idx (before ++ f :: rest) w
            = (Raise e, w2)).
  { intros rest. rewrite for_enumerate_app. unfold bind. rewrite Hb.
    cbn [for_enumerate]. unfold bind. now rewrite Hf. }
  split; [apply Hrun|]. split; [now apply process_file_raise_fs in Hf|].
  pose proof (Hrun []) as H. rewrite <- (set_dry_run_same cfg) in H.
  apply loop_announces in H as (A & _ & Hmode & HF).
  intros p Hp.
  assert (HA : In p (renames w) \/ In p A).
  { destruct (dry_run cfg).
    - destruct Hmode as (_ & Hre & _). rewrite Hre in Hp. now left.
    - destruct Hmode as (Hre & _). rewrite Hre in Hp.
      now apply in_app_or in Hp. }
  destruct HA as [HA|HA]; [now left|right].
  rewrite Forall_forall in HF. exact (HF p HA).
Qed.


Lemma apply_renames_one (old new : str) (rest : list (str * str))
    (fs fs' : FS) :
  path_rename old new fs = Ok fs' ->
  apply_renames ((old, new) :: rest) fs = apply_renames rest fs'.
Proof. intros H. simpl. now rewrite H. Qed.

(** The file system after the loop is the one before it with the calls of
    [rename] that succeeded applied in order. *)
Lemma loop_applies_renames (cfg : BatchRenameConfig) (matcher : Pattern)
    (b : bool) :
  forall fls idx w r w',
    for_enumerate (process_file (set_dry_run cfg b) matcher) idx fls w
    = (r, w') ->
    exists A,
      apply_renames A (w_fs w) = Ok (w_fs w')
      /\ (renames w' = renames w ++ A
          \/ exists old new e,
               r = Raise e
               /\ renames w' = renames w ++ A ++ [(old, new)]
               /\ path_rename old new (w_fs w') = Raise e).
Proof.
  induction fls as [|f rest IH]; intros idx w r w'.
  - simpl. unfold ret. intros [= <- <-]. exists []. split; [reflexivity|].
    left. now rewrite app_nil_r.
  - cbn [for_enumerate]. unfold bind.
    destruct (process_file_cases cfg matcher idx f)
      as [(e & evs & Hd & Hp)|[(evs & Hd & Hp)|(evs & new_file & Hd & Hne & Hdry & Hwet)]].
    + rewrite Hp. intros [= <- <-]. exists []. split; [reflexivity|].
      left. destruct (observe_debug w evs Hd) as (_ & H2 & _).
      now rewrite H2, app_nil_r.
    + rewrite Hp. intros H. apply IH in H as (A & Hfs & Hre).
      destruct (observe_debug w evs Hd) as (_ & H2 & _).
      exists A. split; [exact Hfs|]. now rewrite H2 in Hre.
    + destruct b.
      * rewrite Hdry. intros H. apply IH in H as (A & Hfs & Hre).
        destruct (observe_append w evs
                    [Log INFO "Rename (dry run): %s -> %s"
                       [Repr f; Repr new_file];
                     Print (preview_line (f, new_file))] Hd)
          as (_ & H2 & _ & H4).
        simpl in H2. rewrite app_nil_r in H2.
        exists A. rewrite H4 in Hfs. split; [exact Hfs|].
        now rewrite H2 in Hre.
      * rewrite Hwet. unfold fs_rename.
        destruct (observe_append w evs
                    [Log INFO "Rename: %s -> %s" [Repr f; Repr new_file]] Hd)
          as (_ & H2 & _ & H4).
        simpl in H2. rewrite app_nil_r in H2.
        set (w2 := append_events w
                     (evs ++ [Log INFO "Rename: %s -> %s"
                                [Repr f; Repr new_file]])) in *.
        destruct (path_rename f new_file (w_fs w2)) as [fs'|e] eqn:Hren.
        -- intros H. apply IH in H as (A & Hfs & Hre).
           destruct (observe_renamed w2 fs' f new_file) as (_ & O2 & _).
           cbn zeta in O2. rewrite O2, H2 in Hre. cbn [w_fs] in Hfs.
           exists ((f, new_file) :: A). split.
           ++ rewrite H4 in Hren. now rewrite (apply_renames_one _ _ _ _ _ Hren).
           ++ destruct Hre as [Hre|(old & new & e & He & Hre & Hfail)].
              ** left. now rewrite Hre, <- app_assoc.
              ** right. exists old, new, e. split; [exact He|].
                 split; [|exact Hfail]. now rewrite Hre, <- !app_assoc.
        -- intros [= <- <-]. exists []. split; [now rewrite <- H4|].
           right. exists f, new_file, e. split; [reflexivity|].
           split; [now rewrite renames_logged, H2|exact Hren].
Qed.

(** X7.  Nothing but the calls of [rename] changes the file system: after
    a run it is the one before the run with the calls that succeeded
    applied in order, and a call that fails is the last one made. *)
Theorem run_applies_its_renames (cfg : BatchRenameConfig) (w : world) :
  let r := fst (batch_rename cfg w) in
  let w' := snd (batch_rename cfg w) in
  exists A,
    apply_renames A (w_fs w) = Ok (w_fs w')
    /\ (renames w' = renames w ++ A
        \/ exists old new e,
             r = Raise e
             /\ renames w' = renames w ++ A ++ [(old, new)]
             /\ path_rename old new (w_fs w') = Raise e).
Proof.
  cbn zeta. unfold batch_rename, bind, lift.
  destruct (re_compile (pattern cfg) (regex_flags cfg)) as [matcher|e].
  - apply (loop_applies_renames cfg matcher (dry_run cfg) (files cfg)
             (renumber_from cfg) w).
    rewrite set_dry_run_same. apply surjective_pairing.
  - exists []. split; [reflexivity|]. left. cbn [snd]. now rewrite app_nil_r.
Qed.

End LoopFacts.

(** A file the pattern of the tests matches nowhere. *)
Lemma unmatched_file_is_passed_over_witness :
  let w := start ["notes.md"] in
  length (str_of_int 17) <= max_str_digits
  /\ search file_pattern "notes.md" 0 false = None
  /\ exists r w',
       process_file (set_dry_run order_cfg false) file_pattern 17 "notes.md" w
       = (r, w')
       /\ (r = Ok tt \/ r = Raise ReError)
       /\ printed w' = printed w /\ renames w' = renames w
       /\ w_fs w' = w_fs w.
Proof.
  intros w.
  assert (H0 : length (str_of_int 17) <= max_str_digits)
    by (apply Nat.leb_le; reflexivity).
  assert (H1 : search file_pattern "notes.md" 0 false = None) by reflexivity.
  refine (conj H0 (conj H1 _)).
  exact (@unmatched_file_is_passed_over flat (set_dry_run order_cfg false)
           file_pattern 17 "notes.md" w H0 H1).
Defined.

(** Three files of which the second is not in the directory: the first is
    renamed, the call for the second fails, the third is left. *)
Lemma first_exception_ends_loop_witness :
  let body := process_file (set_dry_run order_cfg false) file_pattern in
  let w := start ["file_1.txt"; "file_3.txt"] in
  let w1 := snd (for_enumerate body 17%Z ["file_1.txt"] w) in
  let w2 := snd (body 18%Z "file_2.txt" w1) in
  for_enumerate body 17%Z ["file_1.txt"] w = (Ok tt, w1)
  /\ body (17 + Z.of_nat (length ["file_1.txt"]))%Z "file_2.txt" w1
     = (Raise OSError, w2)
  /\ for_enumerate body 17%Z ["file_1.txt"; "file_2.txt"; "file_3.txt"] w
     = (Raise OSError, w2)
  /\ w_fs w2 = ["017-file.txt"; "file_3.txt"]
  /\ renames w2
     = [("file_1.txt", "017-file.txt"); ("file_2.txt", "018-file.txt")].
Proof.
  intros body w w1 w2.
  assert (H1 : for_enumerate body 17%Z ["file_1.txt"] w = (Ok tt, w1))
    by reflexivity.
  assert (H2 : body (17 + Z.of_nat (length ["file_1.txt"]))%Z "file_2.txt" w1
               = (Raise OSError, w2)) by reflexivity.
  assert (H3 : renames w2
               = [("file_1.txt", "017-file.txt");
                  ("file_2.txt", "018-file.txt")]) by reflexivity.
  pose proof (@first_exception_ends_loop flat (set_dry_run order_cfg false)
                file_pattern 17 ["file_1.txt"] ["file_3.txt"] "file_2.txt"
                w w1 w2 OSError H1 H2) as (Ha & Hb & _).
  exact (conj H1 (conj H2 (conj Ha (conj Hb H3)))).
Defined.


(* ================================================================== *)
(** ** More on the sources of file names *)

Lemma lstrip_spec (s : str) :
  exists sp,
    s = sp ++ lstrip s /\ forallb isspace sp = true
    /\ match lstrip s with
       | [] => True
       | c :: _ => isspace c = false
       end.
Proof.
  induction s as [|c s IH]; [now exists []|]. simpl.
  destruct (isspace c) eqn:Hc.
  - destruct IH as (sp & E & Hsp & Hhd). exists (c :: sp). simpl.
    rewrite Hc, Hsp. now rewrite <- E.
  - exists []. now rewrite Hc.
Qed.

Lemma lstrip_blank (s : str) : forallb isspace s = true -> lstrip s = [].
Proof.
  induction s as [|c s IH]; [reflexivity|]. simpl.
  intros H. apply andb_true_iff in H as [Hc Hs]. rewrite Hc. now apply IH.
Qed.

(** What [strip] returns is empty, or begins and ends with a character
    that is not whitespace. *)
Lemma strip_spec (s : str) :
  strip s = []
  \/ exists c z t u,
       strip s = c :: t /\ strip s = u ++ [z]
       /\ isspace c = false /\ isspace z = false.
Proof.
  unfold strip, rstrip.
  destruct (lstrip_spec s) as (_ & _ & _ & Hhd).
  destruct (lstrip s) as [|c t] eqn:Et; [now left|]. right.
  destruct (lstrip_spec (rev (c :: t))) as (sp & E & Hsp & Hz).
  destruct (lstrip (rev (c :: t))) as [|z v] eqn:Ev.
  - rewrite app_nil_r in E.
    assert (Hin : In c sp).
    { rewrite <- E. apply in_rev. rewrite rev_involutive. now left. }
    rewrite forallb_forall in Hsp. rewrite (Hsp c Hin) in Hhd. discriminate.
  - apply (f_equal (@rev ascii)) in E.
    rewrite rev_involutive, rev_app_distr in E. simpl in E.
    simpl. destruct (rev v) as [|c' v'] eqn:Erv; simpl in *.
    + injection E as -> _. exists z, z, [], []. now repeat split.
    + injection E as <- _. exists c, z, (v' ++ [z]), (c :: v').
      now repeat split.
Qed.

Section MoreSources.
Context {P : Platform}.

(** X8.  File arguments none of which is a hyphen are what [gen_files]
    yields, as they are and in their order, whatever [--glob] and [--walk]
    say, what is on standard input and what is in the file system. *)
Theorem gen_files_yields_arguments (files : list str)
    (glob_expr : option str) (walk_root : str) (stdin : list str) (fs : FS) :
  files <> [] ->
  forallb (fun f => negb (str_eqb f "-")) files = true ->
  gen_files files glob_expr walk_root stdin fs = files.
Proof.
  intros Hne H. unfold gen_files. destruct files as [|f rest]; [easy|].
  now apply gen_explicit_plain.
Qed.

(** X9.  With the hyphen as the only file argument, [gen_files] yields one
    name for each line of standard input, in order: the line stripped,
    which is empty or begins and ends with a character that is not
    whitespace, and which stripping again leaves as it is.  A line of
    whitespace only is not left out: its name is the empty string. *)
Theorem stdin_names_are_stripped (glob_expr : option str) (walk_root : str)
    (stdin : list str) (fs : FS) :
  let names := gen_files ["-"] glob_expr walk_root stdin fs in
  names = map strip stdin
  /\ length names = length stdin
  /\ Forall
       (fun x =>
          strip x = x
          /\ (x = []
              \/ exists c z t u,
                   x = c :: t /\ x = u ++ [z]
                   /\ isspace c = false /\ isspace z = false)) names
  /\ (forall k line,
        nth_error stdin k = Some line -> forallb isspace line = true ->
        nth_error names k = Some []).
Proof.
  cbn zeta.
  assert (Hnames :
            gen_files ["-"] glob_expr walk_root stdin fs = map strip stdin).
  { unfold gen_files.
    etransitivity; [exact (gen_explicit_dash [] [] stdin eq_refl)|].
    cbn [filter app]. apply app_nil_r. }
  rewrite Hnames. split; [reflexivity|]. split; [apply length_map|]. split.
  - apply Forall_forall. intros x Hin. apply in_map_iff in Hin as (l & <- & _).
    destruct (strip_spec l) as [E|(c & z & t & u & E1 & E2 & Hc & Hz)].
    + rewrite E. split; [reflexivity|now left].
    + split.
      * rewrite E1. apply (strip_id c z t u Hc Hz). now rewrite <- E1.
      * right. now exists c, z, t, u.
  - intros k line Hk Hb. rewrite nth_error_map, Hk. simpl.
    unfold strip. now rewrite (lstrip_blank _ Hb).
Qed.



End MoreSources.

(** Two file arguments, one with spaces around it, beside a glob, a walk
    root and a line on standard input. *)
Lemma gen_files_yields_arguments_witness :
  ["a.txt"; " b "] <> []
  /\ forallb (fun f => negb (str_eqb f "-")) ["a.txt"; " b "] = true
  /\ gen_files ["a.txt"; " b "] (Some "a") "." ["x"]
       (["a"; "c"] : @FS flat)
     = ["a.txt"; " b "].
Proof.
  assert (H1 : ["a.txt"; " b "] <> ([] : list str)) by discriminate.
  assert (H2 : forallb (fun f => negb (str_eqb f "-")) ["a.txt"; " b "]
               = true) by reflexivity.
  refine (conj H1 (conj H2 _)).
  exact (@gen_files_yields_arguments flat ["a.txt"; " b "] (Some "a") "."
           ["x"] ["a"; "c"] H1 H2).
Defined.

(* ================================================================== *)
(** ** The renumbering argument, read without the engine *)

Lemma span_digits_spec (s : str) :
  s = fst (span_digits s) ++ snd (span_digits s)
  /\ forallb isdigit (fst (span_digits s)) = true
  /\ match snd (span_digits s) with
     | [] => True
     | c :: _ => isdigit c = false
     end.
Proof.
  induction s as [|c s IH]; [now repeat split|]. simpl.
  destruct (isdigit c) eqn:Hc.
  - destruct (span_digits s) as [d r]. simpl in *.
    destruct IH as (E & Hd & Hr). rewrite Hc, Hd. now rewrite <- E.
  - simpl. now rewrite Hc.
Qed.

Lemma nth_error_middle {A} (pre rest : list A) :
  nth_error (pre ++ rest) (length pre) = hd_error rest.
Proof.
  induction pre as [|x pre IH]; [now destruct rest|exact IH].
Qed.

Lemma run_range (lo hi : ascii) (s : str) (pos : nat) (c : caps) k :
  run (RRange lo hi) s pos c k
  = match nth_error s pos with
    | Some b => if in_range lo hi b then k (S pos) c else None
    | None => None
    end.
Proof. reflexivity. Qed.

Lemma run_char (a : ascii) (s : str) (pos : nat) (c : caps) k :
  run (RChar a) s pos c k
  = match nth_error s pos with
    | Some b => if ch_eqb a b then k (S pos) c else None
    | None => None
    end.
Proof. reflexivity. Qed.

Lemma run_cat (r1 r2 : regex) (s : str) (pos : nat) (c : caps) k :
  run (RCat r1 r2) s pos c k
  = run r1 s pos c (fun pos' c' => run r2 s pos' c' k).
Proof. reflexivity. Qed.

Lemma run_alt (r1 r2 : regex) (s : str) (pos : nat) (c : caps) k :
  run (RAlt r1 r2) s pos c k
  = match run r1 s pos c k with
    | Some res => Some res
    | None => run r2 s pos c k
    end.
Proof. reflexivity. Qed.

Lemma run_star (r : regex) (s : str) (pos : nat) (c : caps) k :
  run (RStar r) s pos c k = star_loop (run r s) k (length s) pos c.
Proof. reflexivity. Qed.

Lemma run_group (index : nat) (r : regex) (s : str) (pos : nat) (c : caps) k :
  run (RGroup index r) s pos c k
  = run r s pos c (fun pos' c' => k pos' (set_cap index (pos, pos') c')).
Proof. reflexivity. Qed.

Section DigitRuns.
Variable s : str.
Variable K : nat -> caps -> option (nat * caps).
Hypothesis K_total : forall pos c, K pos c <> None.

(** The loop of [[0-9]*] before a continuation that cannot fail takes all
    the digits there are. *)
Lemma star_digits (fuel : nat) :
  forall (pre d rest : str) (c : caps),
    s = pre ++ d ++ rest ->
    forallb isdigit d = true ->
    match rest with [] => True | x :: _ => isdigit x = false end ->
    length d <= fuel ->
    star_loop (run (RRange "0" "9") s) K fuel (length pre) c
    = K (length pre + length d) c.
Proof.
  induction fuel as [|fuel IH]; intros pre d rest c Hs Hd Hrest Hlen.
  - destruct d; [|simpl in Hlen; lia]. simpl. now rewrite Nat.add_0_r.
  - assert (Hn : nth_error s (length pre) = hd_error (d ++ rest))
      by (rewrite Hs; apply nth_error_middle).
    cbn [star_loop]. rewrite run_range, Hn.
    destruct d as [|b d].
    + simpl. rewrite Nat.add_0_r. destruct rest as [|x rest]; [reflexivity|].
      simpl. change (in_range "0" "9" x) with (isdigit x). now rewrite Hrest.
    + simpl in Hd. apply andb_true_iff in Hd as [Hb Hd]. simpl hd_error.
      cbv iota. change (in_range "0" "9" b) with (isdigit b). rewrite Hb.
      assert (Hle : (S (length pre) <=? length pre) = false)
        by (apply Nat.leb_gt; lia).
      rewrite Hle.
      assert (E : star_loop (run (RRange "0" "9") s) K fuel (S (length pre)) c
                  = K (length pre + length (b :: d)) c).
      { replace (S (length pre)) with (length (pre ++ [b]))
          by (rewrite length_app; simpl; lia).
        rewrite (IH (pre ++ [b]) d rest c).
        - f_equal. rewrite length_app. simpl. lia.
        - rewrite Hs, <- app_assoc. reflexivity.
        - exact Hd.
        - exact Hrest.
        - simpl in Hlen. lia. }
      rewrite E. destruct (K _ c) eqn:EK; [reflexivity|].
      now apply K_total in EK.
Qed.

(** [[0-9]+] before such a continuation: all the digits, and at least
    one. *)
Lemma run_digits1 (pre d rest : str) (c : caps) :
  s = pre ++ d ++ rest ->
  forallb isdigit d = true ->
  match rest with [] => True | x :: _ => isdigit x = false end ->
  run digits1 s (length pre) c K
  = match d with
    | [] => None
    | _ :: _ => K (length pre + length d) c
    end.
Proof.
  intros Hs Hd Hrest. unfold digits1, RPlus.
  assert (Hn : nth_error s (length pre) = hd_error (d ++ rest))
    by (rewrite Hs; apply nth_error_middle).
  rewrite run_cat, run_range, Hn.
  destruct d as [|b d].
  - destruct rest as [|x rest]; [reflexivity|]. simpl.
    change (in_range "0" "9" x) with (isdigit x). now rewrite Hrest.
  - simpl in Hd. apply andb_true_iff in Hd as [Hb Hd]. simpl hd_error.
    cbv iota. change (in_range "0" "9" b) with (isdigit b). rewrite Hb.
    rewrite run_star.
    replace (S (length pre)) with (length (pre ++ [b]))
      by (rewrite length_app; simpl; lia).
    rewrite (star_digits (length s) (pre ++ [b]) d rest c).
    + f_equal. rewrite length_app. simpl. lia.
    + rewrite Hs, <- app_assoc. reflexivity.
    + exact Hd.
    + exact Hrest.
    + rewrite Hs, !length_app. simpl. lia.
Qed.

End DigitRuns.

Lemma run_digits1_at (s : str) K (pos : nat) (pre d rest : str) (c : caps) :
  (forall p c', K p c' <> None) ->
  pos = length pre ->
  s = pre ++ d ++ rest ->
  forallb isdigit d = true ->
  match rest with [] => True | x :: _ => isdigit x = false end ->
  run digits1 s pos c K
  = match d with
    | [] => None
    | _ :: _ => K (pos + length d) c
    end.
Proof. intros HK ->. now apply run_digits1. Qed.

Lemma ch_eqb_sym (a b : ascii) : ch_eqb a b = ch_eqb b a.
Proof. unfold ch_eqb. apply Ascii.eqb_sym. Qed.

Lemma pmatch_renumber_re (s : str) : pmatch renumber_re s = renumber_match s.
Proof.
  unfold renumber_match.
  destruct (span_digits_spec s) as (Hs & Hd1 & Hrest).
  destruct (span_digits s) as [d1 rest]. cbn [fst snd] in *.
  unfold pmatch, renumber_re, compile_regex. cbn [match_at].
  change (repeat None (ngroups _)) with ([None; None; None] : caps).
  cbn [andb].
  rewrite run_cat, run_group.
  rewrite (run_digits1_at s _ 0 [] d1 rest);
    [|intros p c'; unfold ROpt; rewrite run_alt;
      now destruct (run _ s p _ _)
     |reflexivity|exact Hs|exact Hd1|exact Hrest].
  destruct d1 as [|b d1]; [reflexivity|].
  set (n1 := length (b :: d1)). cbn [Nat.add set_cap].
  unfold ROpt. rewrite run_alt, run_cat, run_group, run_alt, !run_char.
  assert (Hn : nth_error s n1 = hd_error rest).
  { rewrite Hs. apply nth_error_middle. }
  rewrite Hn. destruct rest as [|sign rest2]; [reflexivity|].
  cbn [hd_error].
  destruct (span_digits_spec rest2) as (Hs2 & Hd2 & Hrest2).
  destruct (span_digits rest2) as [d2 rest3]. cbn [fst snd] in *.
  assert (Hrun : forall c K,
            (forall p c', K p c' <> None) ->
            run digits1 s (S n1) c K
            = match d2 with
              | [] => None
              | _ :: _ => K (S n1 + length d2) c
              end).
  { intros c K HK.
    apply (run_digits1_at s K (S n1) ((b :: d1) ++ [sign]) d2 rest3);
      [exact HK| |  |exact Hd2|exact Hrest2].
    - rewrite length_app. simpl. unfold n1. simpl. lia.
    - rewrite Hs, Hs2 at 1. now rewrite <- !app_assoc. }
  rewrite (ch_eqb_sym "+" sign), (ch_eqb_sym "-" sign).
  rewrite !run_group.
  rewrite !Hrun by (intros; discriminate).
  destruct d2 as [|b2 d2].
  - now destruct (ch_eqb sign "+"), (ch_eqb sign "-").
  - destruct (ch_eqb sign "+"); [reflexivity|].
    destruct (ch_eqb sign "-"); reflexivity.
Qed.

Lemma slice_middle (pre d rest : str) :
  slice (pre ++ d ++ rest) (length pre) (length pre + length d) = d.
Proof.
  unfold slice. rewrite skipn_app, skipn_all, Nat.sub_diag. simpl.
  replace (length pre + length d - length pre) with (length d) by lia.
  rewrite firstn_app, firstn_all, Nat.sub_diag. simpl. apply app_nil_r.
Qed.

Lemma groups_nth_spans (s : str) (m : MatchObj) (k : nat) :
  groups_nth s m k
  = match nth_error (m_spans m) k with
    | Some (Some (b, e)) => Some (slice s b e)
    | _ => None
    end.
Proof.
  unfold groups_nth, group. cbn [Z.of_nat].
  rewrite SuccNat2Pos.id_succ. cbn [Nat.sub]. rewrite Nat.sub_0_r.
  now destruct (nth_error (m_spans m) k) as [[[b e]|]|].
Qed.

Lemma init_renumbering_scan (c : ascii) (s : str) :
  init_renumbering (Some (c :: s)) = scan_renumbering (c :: s).
Proof.
  unfold init_renumbering. rewrite pmatch_renumber_re.
  unfold renumber_match, scan_renumbering.
  generalize (c :: s). clear c s. intros s.
  destruct (span_digits_spec s) as (Hs & Hd1 & Hrest).
  destruct (span_digits s) as [d1 rest]. cbn [fst snd] in *.
  destruct d1 as [|b d1]; [reflexivity|].
  set (n1 := length (b :: d1)).
  assert (H1 : slice s 0 n1 = b :: d1).
  { rewrite Hs. apply (slice_middle [] (b :: d1) rest). }
  assert (Hplain :
            result_bind
              (py_int
                 (groups_nth s
                    {| m_start := 0; m_end := n1;
                       m_spans := [Some (0, n1); None; None] |} 0))
              (fun g =>
                 match
                   groups_nth s
                     {| m_start := 0; m_end := n1;
                        m_spans := [Some (0, n1); None; None] |} 1
                 with
                 | Some sign =>
                     if str_eqb sign "+" then
                       result_bind
                         (py_int
                            (groups_nth s
                               {| m_start := 0; m_end := n1;
                                  m_spans := [Some (0, n1); None; None] |} 2))
                         (fun v => Ok (Some g, v))
                     else if str_eqb sign "-" then
                       result_bind
                         (py_int
                            (groups_nth s
                               {| m_start := 0; m_end := n1;
                                  m_spans := [Some (0, n1); None; None] |} 2))
                         (fun v => Ok (Some g, (0 - v)%Z))
                     else Ok (Some g, 0%Z)
                 | None => Ok (Some g, 0%Z)
                 end)
            = result_bind (py_int (Some (b :: d1)))
                (fun g => Ok (Some g, 0%Z))).
  { rewrite !groups_nth_spans. cbn [m_spans nth_error]. now rewrite H1. }
  destruct rest as [|sign rest2].
  - rewrite Hplain. reflexivity.
  - destruct (span_digits_spec rest2) as (Hs2 & Hd2 & Hrest2).
    destruct (span_digits rest2) as [d2 rest3]. cbn [fst snd] in *.
    destruct d2 as [|b2 d2].
    + rewrite Hplain. reflexivity.
    + destruct (ch_eqb sign "+" || ch_eqb sign "-") eqn:Hsign.
      * set (d2' := b2 :: d2) in *.
        assert (H2 : slice s n1 (S n1) = [sign]).
        { rewrite Hs. replace (S n1) with (n1 + length [sign])
            by (unfold n1; simpl; lia).
          apply (slice_middle (b :: d1) [sign] rest2). }
        assert (H3 : slice s (S n1) (S n1 + length d2') = d2').
        { rewrite Hs, Hs2.
          replace (S n1) with (length ((b :: d1) ++ [sign]))
            by (rewrite length_app; simpl; unfold n1; simpl; lia).
          replace ((b :: d1) ++ sign :: d2' ++ rest3)
            with (((b :: d1) ++ [sign]) ++ d2' ++ rest3)
            by now rewrite <- app_assoc.
          apply slice_middle. }
        rewrite !groups_nth_spans. cbn [m_spans nth_error].
        rewrite H1, H2, H3. cbn [str_eqb]. rewrite !andb_true_r.
        destruct (py_int (Some (b :: d1))); [|reflexivity].
        cbn [result_bind].
        destruct (ch_eqb sign "+"); [reflexivity|].
        simpl in Hsign. now rewrite Hsign.
      * rewrite Hplain. apply orb_false_iff in Hsign as [-> ->].
        reflexivity.
Qed.

(** X11.  [init_renumbering] gives no group and offset 0 for no argument
    or an empty one, and reads any other from the left: decimal digits, of
    which there must be one, then a sign and digits if both are there; it
    does not look at what follows. *)
Theorem init_renumbering_scans (renumber_group : option str) :
  init_renumbering renumber_group
  = match renumber_group with
    | None | Some [] => Ok (None, 0%Z)
    | Some s => scan_renumbering s
    end.
Proof.
  destruct renumber_group as [[|c s]|]; [reflexivity| |reflexivity].
  apply init_renumbering_scan.
Qed.

Lemma uint_of_digits (d : str) :
  forallb isdigit d = true ->
  exists u,
    DecimalString.NilEmpty.uint_of_string (String.string_of_list_ascii d)
    = Some u.
Proof.
  induction d as [|c d IH]; [now exists Decimal.Nil|].
  simpl. intros H. apply andb_true_iff in H as [Hc Hd].
  destruct (IH Hd) as (u & ->).
  destruct c as [[] [] [] [] [] [] [] []]; try discriminate Hc;
    eexists; reflexivity.
Qed.

Lemma digits_last (d : str) (c : ascii) :
  forallb isdigit (c :: d) = true ->
  exists u z, c :: d = u ++ [z] /\ isdigit z = true.
Proof.
  intros H. destruct (exists_last (l := c :: d)) as (u & z & E); [easy|].
  exists u, z. split; [exact E|]. rewrite E, forallb_app in H.
  apply andb_true_iff in H as [_ H]. simpl in H. now rewrite andb_true_r in H.
Qed.

(** [int()] of a non-empty string of decimal digits succeeds. *)
Lemma py_int_digits (c : ascii) (d : str) :
  forallb isdigit (c :: d) = true ->
  exists n, py_int (Some (c :: d)) = Ok n /\ (0 <= n)%Z.
Proof.
  intros H. unfold py_int, int_of_str.
  destruct (digits_last d c H) as (u & z & E & Hz).
  assert (Hc : isdigit c = true) by (simpl in H; now apply andb_true_iff in H).
  rewrite (strip_id c z d u (isdigit_not_space c Hc) (isdigit_not_space z Hz) E).
  assert (Hm : ch_eqb c "-" = false)
    by (destruct c as [[] [] [] [] [] [] [] []]; try discriminate Hc; reflexivity).
  assert (Hp : ch_eqb c "+" = false)
    by (destruct c as [[] [] [] [] [] [] [] []]; try discriminate Hc; reflexivity).
  rewrite Hm, Hp. unfold int_of_digits.
  rewrite drop_underscores_digits by easy.
  destruct (uint_of_digits (c :: d) H) as (v & ->). simpl.
  eexists. split; [reflexivity|].
  unfold Z.of_uint. apply N2Z.is_nonneg.
Qed.

Lemma span_digits_head (c : ascii) (s : str) :
  isdigit c = true ->
  exists d, fst (span_digits (c :: s)) = c :: d.
Proof.
  intros H. simpl. rewrite H. destruct (span_digits s). now eexists.
Qed.

Lemma scan_renumbering_ok (c : ascii) (s : str) :
  isdigit c = true ->
  match scan_renumbering (c :: s) with
  | Ok (Some g, _) => (0 <= g)%Z
  | _ => False
  end.
Proof.
  intros Hc. unfold scan_renumbering.
  destruct (span_digits_spec (c :: s)) as (_ & Hd1 & _).
  destruct (span_digits_head c s Hc) as (d & Hhead).
  destruct (span_digits (c :: s)) as [d1 rest]. cbn [fst snd] in *. subst d1.
  destruct (py_int_digits c d Hd1) as (g & Eg & Hg).
  unfold str in *. rewrite Eg. cbn [result_bind].
  destruct rest as [|sign rest2]; [exact Hg|].
  destruct (span_digits_spec rest2) as (_ & Hd2 & _).
  destruct (span_digits rest2) as [[|b2 d2] rest3]; cbn [fst] in *;
    [exact Hg|].
  destruct (py_int_digits b2 d2 Hd2) as (v & Ev & _).
  unfold str in *. rewrite Ev. cbn [result_bind].
  destruct (ch_eqb sign "+"); [exact Hg|].
  destruct (ch_eqb sign "-"); exact Hg.
Qed.

(** X12.  The only arguments [init_renumbering] refuses are the non-empty
    ones that do not begin with a decimal digit, and what it raises for
    them is [ValueError]; the group number it returns otherwise is not
    negative.  The argument is taken to be short enough for [int()] to
    convert the numerals in it. *)
Theorem init_renumbering_errors (s : str) :
  length s <= max_str_digits ->
  (forall e,
     init_renumbering (Some s) = Raise e
     <-> e = ValueError /\ exists c t, s = c :: t /\ isdigit c = false)
  /\ (forall g o, init_renumbering (Some s) = Ok (Some g, o) -> (0 <= g)%Z).
Proof.
  intros _. destruct s as [|c s].
  - split; [|discriminate]. intros e. split; [discriminate|].
    now intros (_ & c & t & [=] & _).
  - rewrite init_renumbering_scan. destruct (isdigit c) eqn:Hc.
    + pose proof (scan_renumbering_ok c s Hc) as Hok.
      destruct (scan_renumbering (c :: s)) as [[[g|] o]|e']; try easy. split.
      * intros e. split; [discriminate|].
        intros (_ & c' & t & [= <- <-] & H). congruence.
      * now intros g' o' [= <- <-].
    + rewrite <- init_renumbering_scan.
      rewrite (init_renumbering_not_digit c s Hc). split; [|discriminate].
      intros e. split.
      * intros [= <-]. split; [reflexivity|]. now exists c, s.
      * now intros (-> & _).
Qed.

Lemma span_digits_app (d rest : str) :
  forallb isdigit d = true ->
  match rest with [] => True | x :: _ => isdigit x = false end ->
  span_digits (d ++ rest) = (d, rest).
Proof.
  intros Hd Hrest. induction d as [|c d IH]; simpl.
  - destruct rest as [|x rest]; [reflexivity|]. simpl. now rewrite Hrest.
  - simpl in Hd. apply andb_true_iff in Hd as [Hc Hd]. rewrite Hc.
    now rewrite (IH Hd).
Qed.

(** [str(n)] for [n] that is not negative: digits, which [int()] reads
    back as [n]. *)
Lemma str_of_int_digits (n : Z) :
  (0 <= n)%Z ->
  forallb isdigit (str_of_int n) = true
  /\ str_of_int n <> []
  /\ py_int (Some (str_of_int n)) = Ok n.
Proof.
  intros Hn. rewrite <- (Z.abs_eq n Hn) at 1 2 3.
  rewrite str_of_int_abs.
  pose proof (digits_of_isdigit
                match n with
                | 0%Z => Decimal.D0 Decimal.Nil
                | Z.pos p | Z.neg p => Pos.to_uint p
                end) as Hd.
  pose proof (digits_of_not_empty n) as Hne.
  pose proof (int_of_padded_digits 0 n) as Hint. simpl in Hint.
  cbv beta in Hd, Hne.
  split; [exact Hd|]. split; [exact Hne|].
  destruct (String.list_ascii_of_string _) as [|c d] eqn:E; [easy|].
  destruct (py_int_digits c d Hd) as (m & Hm & _).
  unfold py_int, int_of_str in *.
  destruct (digits_last d c Hd) as (u & z & Eu & Hz).
  assert (Hc : isdigit c = true)
    by (simpl in Hd; now apply andb_true_iff in Hd).
  rewrite (strip_id c z d u (isdigit_not_space c Hc) (isdigit_not_space z Hz) Eu)
    in *.
  assert (Hmi : ch_eqb c "-" = false)
    by (destruct c as [[] [] [] [] [] [] [] []]; try discriminate Hc; reflexivity).
  assert (Hp : ch_eqb c "+" = false)
    by (destruct c as [[] [] [] [] [] [] [] []]; try discriminate Hc; reflexivity).
  rewrite Hmi, Hp, Hint. now rewrite Z.abs_eq.
Qed.

(** X13.  Writing a group number and an offset in the form the option
    asks for and reading them with [init_renumbering] gives them back:
    [N], [N+M] and [N-M] give group [N] with offset 0, [M] and [-M], for
    numbers that are not negative and that [int()] converts. *)
Theorem init_renumbering_round_trip (g o : Z) :
  (0 <= g)%Z -> (0 <= o)%Z ->
  length (str_of_int g) <= max_str_digits ->
  length (str_of_int o) <= max_str_digits ->
  init_renumbering (Some (str_of_int g)) = Ok (Some g, 0%Z)
  /\ init_renumbering (Some (str_of_int g ++ "+" ++ str_of_int o))
     = Ok (Some g, o)
  /\ init_renumbering (Some (str_of_int g ++ "-" ++ str_of_int o))
     = Ok (Some g, (- o)%Z).
Proof.
  intros Hg Ho _ _.
  destruct (str_of_int_digits g Hg) as (Hdg & Hneg & Hig).
  destruct (str_of_int_digits o Ho) as (Hdo & Hneo & Hio).
  assert (Hsigned : forall sign,
            isdigit sign = false ->
            init_renumbering (Some (str_of_int g ++ [sign] ++ str_of_int o))
            = if ch_eqb sign "+" then Ok (Some g, o)
              else if ch_eqb sign "-" then Ok (Some g, (0 - o)%Z)
              else Ok (Some g, 0%Z)).
  { intros sign Hsign.
    destruct (str_of_int g ++ [sign] ++ str_of_int o) as [|c s] eqn:E.
    { destruct (str_of_int g); discriminate E. }
    rewrite init_renumbering_scan, <- E. unfold scan_renumbering.
    rewrite (span_digits_app (str_of_int g) ([sign] ++ str_of_int o) Hdg Hsign).
    destruct (str_of_int g) as [|cg dg] eqn:Eg; [easy|].
    unfold str in *. rewrite Hig. cbn [result_bind app].
    rewrite <- (app_nil_r (str_of_int o)) at 1.
    rewrite (span_digits_app (str_of_int o) [] Hdo I). cbn [fst].
    destruct (str_of_int o) as [|co do] eqn:Eo; [easy|].
    unfold str in *. rewrite Hio. reflexivity. }
  split; [|split].
  - destruct (str_of_int g) as [|c s] eqn:E; [easy|].
    rewrite init_renumbering_scan. unfold scan_renumbering.
    rewrite <- (app_nil_r (c :: s)) at 1.
    rewrite (span_digits_app (c :: s) [] Hdg I). unfold str in *.
    now rewrite Hig.
  - exact (Hsigned "+"%char eq_refl).
  - rewrite (Hsigned "-"%char eq_refl). reflexivity.
Qed.

(** An argument that begins with a letter. *)
Lemma init_renumbering_errors_witness :
  length "x2" <= max_str_digits
  /\ init_renumbering (Some "x2") = Raise ValueError.
Proof.
  assert (H1 : length "x2" <= max_str_digits)
    by (apply Nat.leb_le; reflexivity).
  refine (conj H1 _).
  exact (proj2 (proj1 (init_renumbering_errors "x2" H1) ValueError)
           (conj eq_refl
              (ex_intro _ "x"%char (ex_intro _ "2" (conj eq_refl eq_refl))))).
Defined.

(** The example of the docstring: [2-10] is group 2 with offset -10. *)
Lemma init_renumbering_round_trip_witness :
  (0 <= 2)%Z /\ (0 <= 10)%Z
  /\ length (str_of_int 2) <= max_str_digits
  /\ length (str_of_int 10) <= max_str_digits
  /\ init_renumbering (Some "2-10") = Ok (Some 2%Z, (-10)%Z).
Proof.
  assert (H1 : (0 <= 2)%Z) by lia.
  assert (H2 : (0 <= 10)%Z) by lia.
  assert (H3 : length (str_of_int 2) <= max_str_digits)
    by (apply Nat.leb_le; reflexivity).
  assert (H4 : length (str_of_int 10) <= max_str_digits)
    by (apply Nat.leb_le; reflexivity).
  refine (conj H1 (conj H2 (conj H3 (conj H4 _)))).
  exact (proj2 (proj2 (init_renumbering_round_trip 2 10 H1 H2 H3 H4))).
Defined.

(* ================================================================== *)
(** ** What numbering does to the template *)

Lemma ch_eqb_eq (a b : ascii) : ch_eqb a b = true <-> a = b.
Proof. unfold ch_eqb. apply Ascii.eqb_eq. Qed.

Section ReplaceAll.
Variables (o : ascii) (old' new : str).
Let old : str := o :: old'.

Lemma replace_absent (s : str) :
  contains old s = false -> replace s old new = s.
Proof.
  unfold replace, old. induction s as [|c s IH]; [reflexivity|].
  intros H. cbn [contains] in H. apply orb_false_iff in H as [Hs Hc].
  cbn [replace_from]. rewrite Hs. now rewrite (IH Hc).
Qed.

Hypothesis new_not_empty : new <> [].
Hypothesis new_apart : forall x, In x new -> In x old -> False.

Lemma startswith_head (a : ascii) (s : str) :
  startswith old (a :: s) = true -> In a old.
Proof.
  unfold old. cbn [startswith]. intros H.
  apply andb_true_iff in H as [H _]. apply ch_eqb_eq in H. now left.
Qed.

(** A prefix of the result made of characters that are not in [new] was a
    prefix of the string already. *)
Lemma startswith_replace (p : str) :
  (forall x, In x p -> In x new -> False) ->
  forall s,
    startswith p (replace_from old new 0 s) = true -> startswith p s = true.
Proof.
  induction p as [|x p IH]; intros Hp s; [reflexivity|].
  destruct s as [|c s]; [now simpl|]. cbn [replace_from].
  destruct (startswith old (c :: s)).
  - destruct new as [|n0 new'] eqn:En; [easy|]. cbn [app startswith].
    intros H. apply andb_true_iff in H as [H _]. apply ch_eqb_eq in H.
    exfalso. apply (Hp x); [now left|]. subst x. now left.
  - cbn [startswith]. intros H. apply andb_true_iff in H as [Hx H].
    rewrite Hx. cbn [andb]. apply IH; [|exact H].
    intros y Hy. apply Hp. now right.
Qed.

Lemma contains_after_new (s : str) :
  contains old (new ++ s) = contains old s.
Proof.
  assert (H : forall a, (forall x, In x a -> In x old -> False) ->
            contains old (a ++ s) = contains old s).
  { induction a as [|x a IH]; intros Ha; [reflexivity|].
    cbn [app contains]. rewrite IH by (intros y Hy; apply Ha; now right).
    destruct (startswith old (x :: a ++ s)) eqn:E; [|reflexivity].
    exfalso. apply (Ha x); [now left|]. now apply startswith_head in E. }
  now apply H.
Qed.

(** What [replace] returns has no occurrence of [old] left, when [new] is
    not empty and has no character of [old]. *)
Lemma replace_leaves_none (s : str) :
  contains old (replace s old new) = false.
Proof.
  unfold replace. change (o :: old') with old.
  assert (H : forall n s, length s <= n ->
            contains old (replace_from old new 0 s) = false).
  { clear s. induction n as [|n IH]; intros s Hlen.
    - destruct s; [reflexivity|simpl in Hlen; lia].
    - destruct s as [|c s]; [reflexivity|]. cbn [replace_from].
      destruct (startswith old (c :: s)) eqn:E.
      + rewrite contains_after_new, replace_from_skip. apply IH.
        rewrite length_skipn. simpl in Hlen. lia.
      + cbn [contains]. rewrite (IH s) by (simpl in Hlen; lia).
        rewrite orb_false_r.
        destruct (startswith old (c :: replace_from old new 0 s)) eqn:E';
          [|reflexivity].
        unfold old in E, E'. cbn [startswith] in E, E'.
        apply andb_true_iff in E' as [Hc E'].
        rewrite Hc in E. cbn [andb] in E.
        apply startswith_replace in E'; [congruence|].
        intros x Hx Hn. apply (new_apart x Hn). now right. }
  now apply (H (length s)).
Qed.

End ReplaceAll.

Lemma zfill_chars (s : str) (width : Z) (x : ascii) :
  In x (zfill s width) -> In x s \/ x = "0"%char.
Proof.
  unfold zfill. destruct (width <=? Z.of_nat (length s))%Z; [now left|].
  assert (Hfill : forall k, In x (repeat "0"%char k) -> x = "0"%char)
    by (intros k H; now apply repeat_spec in H).
  destruct s as [|c s]; [intros H; right; now apply Hfill in H|].
  destruct (ch_eqb c "+" || ch_eqb c "-").
  - intros [->|H]; [now left; left|].
    apply in_app_or in H as [H|H]; [right; now apply Hfill in H|].
    left. now right.
  - intros H. apply in_app_or in H as [H|H]; [right; now apply Hfill in H|].
    now left.
Qed.

Lemma zfill_not_empty (s : str) (width : Z) : s <> [] -> zfill s width <> [].
Proof.
  unfold zfill. destruct (width <=? Z.of_nat (length s))%Z; [easy|].
  destruct s as [|c s]; [easy|]. intros _.
  destruct (ch_eqb c "+" || ch_eqb c "-"); [easy|].
  intros H. now apply app_eq_nil in H as [_ H].
Qed.

Lemma str_of_int_chars (n : Z) (x : ascii) :
  In x (str_of_int n) -> isdigit x = true \/ x = "-"%char.
Proof.
  rewrite str_of_int_sign, str_of_int_abs.
  pose proof (digits_of_isdigit
                match n with
                | 0%Z => Decimal.D0 Decimal.Nil
                | Z.pos p | Z.neg p => Pos.to_uint p
                end) as Hd.
  cbv beta in Hd. rewrite forallb_forall in Hd.
  destruct (n <? 0)%Z.
  - intros [<-|H]; [now right|]. left. now apply Hd.
  - intros H. left. now apply Hd.
Qed.

Lemma str_of_int_not_empty (n : Z) : str_of_int n <> [].
Proof.
  rewrite str_of_int_sign, str_of_int_abs. destruct (n <? 0)%Z; [easy|].
  apply digits_of_not_empty.
Qed.

Section TokenFacts.
Context {P : Platform}.

(** The numeral is not empty and is made of decimal digits and the minus
    sign. *)
Lemma numeral_chars (cfg : BatchRenameConfig) (n : Z) :
  numeral cfg n <> []
  /\ forall x, In x (numeral cfg n) -> isdigit x = true \/ x = "-"%char.
Proof.
  unfold numeral. split.
  - apply zfill_not_empty, str_of_int_not_empty.
  - intros x H. apply zfill_chars in H as [H| ->]; [|now left].
    now apply str_of_int_chars in H.
Qed.

Lemma numeral_apart (cfg : BatchRenameConfig) (n : Z) (x : ascii) :
  In x (numeral cfg n) -> In x "{n}" -> False.
Proof.
  intros H Hx. apply numeral_chars in H as [H| ->].
  - destruct Hx as [<-|[<-|[<-|[]]]]; discriminate H.
  - destruct Hx as [Hx|[Hx|[Hx|[]]]]; discriminate Hx.
Qed.

(** X14.  Where the body of the loop numbers the file (by processing
    order, or from a group of a match at the start of the name) the
    template it goes on with has no [{n}] left: every one is replaced by
    the numeral.  A template in which [{n}] is not written is left as it
    is by the numbering. *)
Theorem numbering_resolves_every_token (cfg : BatchRenameConfig)
    (matcher : Pattern) (idx : Z) (f repl : str) (w w' : world) :
  renumber cfg matcher idx f w = (Ok repl, w') ->
  (group_mode cfg = None \/ pmatch matcher f <> None ->
   contains "{n}" repl = false)
  /\ (contains "{n}" (replacement cfg) = false -> repl = replacement cfg).
Proof.
  intros H.
  assert (Hnum : forall n,
            contains "{n}" (replace (replacement cfg) "{n}" (numeral cfg n))
            = false).
  { intros n. apply replace_leaves_none.
    - apply numeral_chars.
    - apply numeral_apart. }
  split.
  - intros Hmode. unfold renumber in H.
    destruct (group_mode cfg) as [g|].
    + destruct (pmatch matcher f) as [m|]; [|now destruct Hmode].
      destruct (group f m g) as [text|]; [|discriminate H].
      unfold bind, lift in H. destruct (py_int text) as [n|]; [|discriminate H].
      cbn in H. injection H as <- _. apply Hnum.
    + cbn in H. injection H as <- _. apply Hnum.
  - intros Hno. apply renumber_result in H as [H|(n & H)]; [exact H|].
    rewrite H. now apply replace_absent.
Qed.

End TokenFacts.

(* ================================================================== *)
(** ** Templates without a backslash *)

Lemma contains_char (x : ascii) (s : str) :
  contains [x] s = false <-> forallb (fun c => negb (ch_eqb x c)) s = true.
Proof.
  induction s as [|c s IH]; [now split|]. cbn [contains startswith forallb].
  rewrite andb_true_r, orb_false_iff, andb_true_iff, negb_true_iff.
  now rewrite IH.
Qed.

Lemma tokenize_plain (t : str) :
  contains "\" t = false -> tokenize t = Some (map TChar t).
Proof.
  induction t as [|c t IH]; [reflexivity|]. cbn [contains startswith].
  rewrite andb_true_r. intros H. apply orb_false_iff in H as [Hc Ht].
  cbn [tokenize]. rewrite ch_eqb_sym in Hc. rewrite Hc.
  now rewrite (IH Ht).
Qed.

Lemma parse_tokens_plain (p : Pattern) (t : str) :
  forall fuel,
    length t < fuel ->
    parse_tokens p fuel (map TChar t) = Some (map (fun c => Lit [c]) t).
Proof.
  induction t as [|c t IH]; intros [|fuel] Hlen; try (simpl in Hlen; lia).
  - reflexivity.
  - cbn [map parse_tokens]. rewrite IH by (simpl in Hlen; lia). reflexivity.
Qed.

(** A template without a backslash is taken as it is written. *)
Lemma parse_template_plain (p : Pattern) (t : str) :
  contains "\" t = false ->
  parse_template p t = Some (map (fun c => Lit [c]) t).
Proof.
  intros H. unfold parse_template. rewrite (tokenize_plain t H).
  apply parse_tokens_plain. rewrite length_map. lia.
Qed.

Lemma replace_from_forallb (Q : ascii -> bool) (old new : str) :
  forallb Q new = true ->
  forall s k, forallb Q s = true ->
    forallb Q (replace_from old new k s) = true.
Proof.
  intros Hnew. induction s as [|c s IH]; intros k Hs; [reflexivity|].
  simpl in Hs. apply andb_true_iff in Hs as [Hc Hs]. cbn [replace_from].
  destruct k as [|k]; [|now apply IH].
  destruct (startswith old (c :: s)).
  - rewrite forallb_app, Hnew. now apply IH.
  - cbn [forallb]. rewrite Hc. now apply IH.
Qed.

Lemma replace_keeps_plain (s old new : str) :
  old <> [] ->
  contains "\" s = false -> contains "\" new = false ->
  contains "\" (replace s old new) = false.
Proof.
  intros Hold Hs Hnew. unfold replace. destruct old as [|o old']; [easy|].
  apply contains_char. apply replace_from_forallb; now apply contains_char.
Qed.

Section PlainTemplates.
Context {P : Platform}.

Lemma numeral_plain (cfg : BatchRenameConfig) (n : Z) :
  contains "\" (numeral cfg n) = false.
Proof.
  apply contains_char, forallb_forall. intros x H.
  apply numeral_chars in H as [H| ->]; [|reflexivity].
  apply negb_true_iff. destruct (ch_eqb "\" x) eqn:E; [|reflexivity].
  apply ch_eqb_eq in E. subst x. discriminate H.
Qed.

(** In a dry run numbered by processing order, a template without a
    backslash is never refused: the turn of the loop ends normally. *)
Lemma process_file_plain_dry (cfg : BatchRenameConfig) (matcher : Pattern)
    (idx : Z) (f : str) (w : world) :
  group_mode cfg = None ->
  contains "\" (replacement cfg) = false ->
  fst (process_file (set_dry_run cfg true) matcher idx f w) = Ok tt.
Proof.
  intros Hmode Hplain. rewrite process_file_unfold.
  rewrite (renumber_by_order (set_dry_run cfg true) matcher idx f _ Hmode).
  unfold bind, matcher_sub, sub.
  rewrite parse_template_plain.
  - unfold ret, rename_or_skip. cbn [set_dry_run dry_run].
    now destruct (str_eqb f _).
  - unfold unescape. apply replace_keeps_plain; [easy| |reflexivity].
    apply replace_keeps_plain; [easy|exact Hplain|apply numeral_plain].
Qed.

Lemma loop_plain (cfg : BatchRenameConfig) (matcher : Pattern) (b : bool) :
  group_mode cfg = None ->
  contains "\" (replacement cfg) = false ->
  forall fls idx w r w' e,
    for_enumerate (process_file (set_dry_run cfg b) matcher) idx fls w
    = (r, w') ->
    r = Raise e ->
    b = false
    /\ exists old new,
         In (old, new) (renames w')
         /\ path_rename old new (w_fs w') = Raise e.
Proof.
  intros Hmode Hplain.
  induction fls as [|f rest IH]; intros idx w r w' e.
  - simpl. unfold ret. intros [= <- <-]. discriminate.
  - cbn [for_enumerate]. unfold bind.
    destruct (process_file_cases cfg matcher idx f)
      as [(e' & evs & Hd & Hp)|[(evs & Hd & Hp)|(evs & new_file & Hd & Hne & Hdry & Hwet)]].
    + pose proof (process_file_plain_dry cfg matcher idx f w Hmode Hplain) as H.
      rewrite Hp in H. discriminate H.
    + rewrite Hp. apply IH.
    + destruct b.
      * rewrite Hdry. apply IH.
      * rewrite Hwet. unfold fs_rename.
        set (w2 := append_events w _).
        destruct (path_rename f new_file (w_fs w2)) as [fs'|e0] eqn:Hren.
        -- apply IH.
        -- intros [= <- <-] [= <-]. split; [reflexivity|].
           exists f, new_file. split; [|exact Hren].
           rewrite renames_logged. apply in_or_app. right. now left.
Qed.

(** X15.  In a run numbered by processing order, with a template in
    which no backslash is written and numbers that [str] converts, neither
    the numbering nor the substitution raises: the run can fail in two
    ways only, the pattern is refused, or a call of [rename] fails, which
    a dry run does not make. *)
Theorem plain_template_run_errors (cfg : BatchRenameConfig) (w : world) :
  group_mode cfg = None ->
  contains "\" (replacement cfg) = false ->
  (forall k,
     k < length (files cfg) ->
     length (str_of_int (renumber_from cfg + Z.of_nat k)) <= max_str_digits) ->
  forall e,
    fst (batch_rename cfg w) = Raise e ->
    re_compile (pattern cfg) (regex_flags cfg) = Raise e
    \/ (dry_run cfg = false
        /\ exists old new,
             In (old, new) (renames (snd (batch_rename cfg w)))
             /\ path_rename old new (w_fs (snd (batch_rename cfg w)))
                = Raise e).
Proof.
  intros Hmode Hplain _ e. unfold batch_rename, bind, lift.
  destruct (re_compile (pattern cfg) (regex_flags cfg)) as [matcher|e0].
  - intros H. right.
    destruct (for_enumerate (process_file cfg matcher) (renumber_from cfg)
                (files cfg) w) as [r w'] eqn:E.
    rewrite <- (set_dry_run_same cfg) in E at 1.
    cbn [fst snd] in *.
    exact (loop_plain cfg matcher (dry_run cfg) Hmode Hplain _ _ _ _ _ e E H).
  - cbn [fst]. intros [= <-]. now left.
Qed.

End PlainTemplates.

(** The second file of the test [test_renumber_reorder]. *)
Lemma numbering_resolves_every_token_witness :
  let w := start [] in
  let w1 :=
    logged w (Log DEBUG "Renumber to %d from file processing order" [Int 18]) in
  renumber order_cfg file_pattern 18 "file_300.txt" w
  = (Ok "018-file.txt", w1)
  /\ contains "{n}" "018-file.txt" = false.
Proof.
  intros w w1.
  assert (H1 : renumber order_cfg file_pattern 18 "file_300.txt" w
               = (Ok "018-file.txt", w1)) by reflexivity.
  refine (conj H1 _).
  exact (proj1 (@numbering_resolves_every_token flat order_cfg file_pattern
                  18 "file_300.txt" "018-file.txt" w w1 H1)
           (or_introl eq_refl)).
Defined.

(** The rule of [test_renumber_reorder], not as a dry run, in an empty
    directory: the first call of [rename] fails. *)
Lemma plain_template_run_errors_witness :
  let cfg := set_dry_run order_cfg false in
  let w := start [] in
  group_mode cfg = None
  /\ contains "\" (replacement cfg) = false
  /\ (forall k,
        k < length (files cfg) ->
        length (str_of_int (renumber_from cfg + Z.of_nat k)) <= max_str_digits)
  /\ fst (batch_rename cfg w) = Raise OSError
  /\ (re_compile (pattern cfg) (regex_flags cfg) = Raise OSError
      \/ (dry_run cfg = false
          /\ exists old new,
               In (old, new) (renames (snd (batch_rename cfg w)))
               /\ path_rename old new (w_fs (snd (batch_rename cfg w)))
                  = Raise OSError)).
Proof.
  intros cfg w.
  assert (H1 : group_mode cfg = None) by reflexivity.
  assert (H2 : contains "\" (replacement cfg) = false) by reflexivity.
  assert (Hk : forall k,
            k < length (files cfg) ->
            length (str_of_int (renumber_from cfg + Z.of_nat k))
            <= max_str_digits).
  { intros [|[|k]] Hlt; [apply Nat.leb_le; reflexivity
                        |apply Nat.leb_le; reflexivity
                        |simpl in Hlt; lia]. }
  assert (H3 : fst (batch_rename cfg w) = Raise OSError) by reflexivity.
  refine (conj H1 (conj H2 (conj Hk (conj H3 _)))).
  exact (@plain_template_run_errors flat cfg w H1 H2 Hk OSError H3).
Defined.

(* ================================================================== *)
(** ** The entry point and the logger *)

Section EntryPoint.
Context {P : Platform}.

(** X16.  [main] refuses [--test] among other arguments, and a
    renumbering argument that does not begin with a digit, with
    [ValueError] and before anything is logged, printed or renamed,
    whatever the files are. *)
Theorem main_refuses_before_acting (args : BatchRenameArgs)
    (stdin : list str) (w : world) :
  arg_test args = true
  \/ (exists c s,
        arg_renumber_group args = Some (c :: s) /\ isdigit c = false) ->
  main args stdin w = (Raise ValueError, w).
Proof.
  intros H. unfold main. destruct (arg_test args); [reflexivity|].
  destruct H as [H|(c & s & Hg & Hc)]; [discriminate H|].
  unfold bind, lift, init_from_args.
  now rewrite Hg, (init_renumbering_not_digit c s Hc).
Qed.

(** X17.  What the logger of a run displays: nothing without [-v] (the
    level is left to the root logger, which is at [WARNING]); the [INFO]
    records, one for each rename, with one [-v] or any other count that
    is not 0 and below 2; every record from [-vv] on. *)
Theorem verbosity_selects_records (verbose_level : Z) (w : world) :
  displayed verbose_level w
  = if (1 <? verbose_level)%Z then filter is_log (w_trace w)
    else if (verbose_level =? 0)%Z then []
    else infos w.
Proof.
  unfold displayed, infos, init_logger.
  destruct (1 <? verbose_level)%Z.
  - apply filter_ext. now intros [[] fmt a|l|a b].
  - destruct (verbose_level =? 0)%Z; cbn [negb].
    + induction (w_trace w) as [|[[] fmt a|l|a b] tr IH]; simpl; auto.
    + apply filter_ext. now intros [[] fmt a|l|a b].
Qed.

End EntryPoint.

(** A renumbering argument that begins with a letter. *)
Lemma main_refuses_before_acting_witness :
  let args :=
    with_numbering
      (parsed "file_(\d+)\.txt" "{n}-file.txt" ["file_200.txt"]) 1 1
      (Some "x2") in
  let w := start ["file_200.txt"] in
  (arg_test args = true
   \/ exists c s, arg_renumber_group args = Some (c :: s) /\ isdigit c = false)
  /\ main args [] w = (Raise ValueError, w).
Proof.
  intros args w.
  assert (H : arg_test args = true
              \/ exists c s,
                   arg_renumber_group args = Some (c :: s)
                   /\ isdigit c = false).
  { right. exists "x"%char, "2". split; reflexivity. }
  refine (conj H _).
  exact (@main_refuses_before_acting flat args [] w H).
Defined.

(* ================================================================== *)
(** ** Inputs that are not used *)

Section UnusedInputs.
Context {P : Platform}.

(** X18.  Standard input is read only for a hyphen among the file
    arguments: without one, and also without any file argument, what
    [gen_files] yields does not depend on it.  An empty [--glob] is as no
    [--glob]: the tree is walked. *)
Theorem stdin_is_read_for_hyphen_only (files : list str)
    (glob_expr : option str) (walk_root : str) (stdin stdin' : list str)
    (fs : FS) :
  forallb (fun f => negb (str_eqb f "-")) files = true ->
  gen_files files glob_expr walk_root stdin fs
  = gen_files files glob_expr walk_root stdin' fs
  /\ gen_files [] (Some "") walk_root stdin fs = walk_tree walk_root fs.
Proof.
  intros H. split; [|reflexivity]. unfold gen_files.
  destruct files as [|f rest]; [reflexivity|].
  now rewrite !gen_explicit_plain.
Qed.

(** X19.  With a width of 1, the default of [--zero-pad], or any smaller
    one, zero or negative, the numeral is the decimal writing of the
    number: nothing is put in front. *)
Theorem small_pad_is_no_pad (cfg : BatchRenameConfig) (n : Z) :
  (zero_pad cfg <= 1)%Z -> numeral cfg n = str_of_int n.
Proof.
  intros H. unfold numeral, zfill.
  pose proof (str_of_int_not_empty n) as Hne.
  destruct (str_of_int n) as [|c s]; [easy|].
  assert (Hle : (zero_pad cfg <=? Z.of_nat (length (c :: s)))%Z = true).
  { apply Z.leb_le. simpl length. lia. }
  now rewrite Hle.
Qed.

End UnusedInputs.

(** No file argument, with a glob. *)
Lemma stdin_is_read_for_hyphen_only_witness :
  forallb (fun f => negb (str_eqb f "-")) [] = true
  /\ gen_files [] (Some "a") "." ["x"] (["a"; "c"] : @FS flat)
     = gen_files [] (Some "a") "." [] (["a"; "c"] : @FS flat).
Proof.
  assert (H1 : forallb (fun f => negb (str_eqb f "-")) [] = true)
    by reflexivity.
  refine (conj H1 _).
  exact (proj1 (@stdin_is_read_for_hyphen_only flat [] (Some "a") "." ["x"]
                  [] ["a"; "c"] H1)).
Defined.

(** The rule of [test_renumber_group], whose width is 1. *)
Lemma small_pad_is_no_pad_witness :
  (zero_pad group_cfg <= 1)%Z /\ numeral group_cfg 50 = "50".
Proof.
  assert (H1 : (zero_pad group_cfg <= 1)%Z) by (simpl; lia).
  refine (conj H1 _).
  exact (small_pad_is_no_pad group_cfg 50 H1).
Defined.
